(** * Shallow embedding of [src/App_per.py]: field parsers, similarity scorer
    and the classification step of the comparison app. *)

From Stdlib Require Import String Ascii List Bool Arith Lia.
From Stdlib Require Import Reals Lra Permutation.
Import ListNotations.

(* ------------------------------------------------------------------ *)
(** ** Python string primitives used by the parsers (ASCII model). *)
Module PyStr.

Open Scope string_scope.

(** The newline character and the one-character string ["\n"]. *)
Definition nl_char : ascii := "010"%char.
Definition nl : string := String nl_char EmptyString.

(** [str.isspace] / regex [\s] on ASCII characters: [\t\n\v\f\r],
    the separators [\x1c]..[\x1f], and the space. *)
Definition is_space (c : ascii) : bool :=
  let n := nat_of_ascii c in
  (Nat.leb 9 n && Nat.leb n 13) || (Nat.leb 28 n && Nat.leb n 32).

Fixpoint lstrip_l (p : ascii -> bool) (l : list ascii) : list ascii :=
  match l with
  | c :: l' => if p c then lstrip_l p l' else l
  | [] => []
  end.

Definition rstrip_l (p : ascii -> bool) (l : list ascii) : list ascii :=
  rev (lstrip_l p (rev l)).

(** [s.strip()] *)
Definition py_strip (s : string) : string :=
  string_of_list_ascii
    (rstrip_l is_space (lstrip_l is_space (list_ascii_of_string s))).

(** [s.rstrip(":")] *)
Definition py_rstrip_colon (s : string) : string :=
  string_of_list_ascii
    (rstrip_l (fun c => Ascii.eqb c ":"%char) (list_ascii_of_string s)).

(** [s.replace("\n", " ")] *)
Definition py_replace_nl (s : string) : string :=
  string_of_list_ascii
    (map (fun c => if Ascii.eqb c nl_char then " "%char else c)
         (list_ascii_of_string s)).

(** [s.split()]: maximal runs of non-whitespace characters. *)
Definition flush (cur : list ascii) (rest : list (list ascii)) :=
  match cur with
  | [] => rest
  | _ => rev cur :: rest
  end.

Fixpoint split_ws_aux (l cur : list ascii) : list (list ascii) :=
  match l with
  | [] => flush cur []
  | c :: l' =>
      if is_space c then flush cur (split_ws_aux l' [])
      else split_ws_aux l' (c :: cur)
  end.

Definition py_split (s : string) : list string :=
  map string_of_list_ascii (split_ws_aux (list_ascii_of_string s) []).

(** [sep.join(parts)] *)
Fixpoint py_join (sep : string) (parts : list string) : string :=
  match parts with
  | [] => ""
  | [x] => x
  | x :: parts' => x ++ sep ++ py_join sep parts'
  end.

(** [" ".join(s.split())] *)
Definition normalize_ws (s : string) : string := py_join " " (py_split s).

(** Truthiness of a Python string. *)
Definition truthy (s : string) : bool :=
  match s with EmptyString => false | _ => true end.

(** [s.startswith(p)] *)
Fixpoint starts_with (p s : string) : bool :=
  match p, s with
  | EmptyString, _ => true
  | String c p', String d s' => Ascii.eqb c d && starts_with p' s'
  | String _ _, EmptyString => false
  end.

(** [p in s] *)
Fixpoint contains (p s : string) : bool :=
  starts_with p s ||
  match s with
  | EmptyString => false
  | String _ s' => contains p s'
  end.

Fixpoint str_drop (n : nat) (s : string) : string :=
  match n, s with
  | 0, _ => s
  | S n', String _ s' => str_drop n' s'
  | S _, EmptyString => EmptyString
  end.

End PyStr.

(* ------------------------------------------------------------------ *)
(** ** [re.search(OPEN + r"\s+(.+?)" + CLOSE, text, flags=re.DOTALL)]
    and its [\s*] variant, with the backtracking order of Python's [re]:
    the leftmost start position wins; at a position the greedy [\s] run
    tries its longest length first and shrinks one character at a time
    down to its minimum [lo] (1 for [\s+], 0 for [\s*]); for each length
    the lazy [(.+?)] takes the shortest non-empty group that is followed
    by CLOSE.  The result is [group(1)], or [None] when there is no match. *)
Module Regex.
Import PyStr.
Open Scope string_scope.

(** Leading whitespace count: the longest match of [\s*] / [\s+]. *)
Fixpoint lead_ws (s : string) : nat :=
  match s with
  | String c s' => if is_space c then S (lead_ws s') else 0
  | EmptyString => 0
  end.

(** [(.+?)CLOSE] anchored at the start of [s]. *)
Fixpoint lazy_take (closer s : string) : option string :=
  match s with
  | EmptyString => None
  | String c rest =>
      if starts_with closer rest then Some (String c EmptyString)
      else match lazy_take closer rest with
           | Some g => Some (String c g)
           | None => None
           end
  end.

(** Try whitespace-run lengths [k], [k-1], ..., [lo]. *)
Fixpoint ws_backtrack (closer s1 : string) (lo k : nat) : option string :=
  match lazy_take closer (str_drop k s1) with
  | Some g => Some g
  | None =>
      match k with
      | 0 => None
      | S k' => if Nat.leb lo k' then ws_backtrack closer s1 lo k' else None
      end
  end.

(** The pattern anchored at the start of [s]. *)
Definition match_at (opener closer : string) (lo : nat) (s : string)
  : option string :=
  if starts_with opener s then
    let s1 := str_drop (String.length opener) s in
    let w := lead_ws s1 in
    if Nat.leb lo w then ws_backtrack closer s1 lo w else None
  else None.

(** [re.search]: the first start position with a match. *)
Fixpoint search_span (opener closer : string) (lo : nat) (s : string)
  : option string :=
  match match_at opener closer lo s with
  | Some g => Some g
  | None =>
      match s with
      | EmptyString => None
      | String _ s' => search_span opener closer lo s'
      end
  end.

End Regex.

(* ------------------------------------------------------------------ *)
(** ** Python [dict] with string keys, as an insertion-ordered
    association list: assignment to a present key updates it in place. *)
Module PyDict.
Open Scope string_scope.

Definition dict (V : Type) := list (string * V).

Fixpoint dict_get {V} (d : dict V) (k : string) : option V :=
  match d with
  | [] => None
  | (k', v) :: d' => if String.eqb k k' then Some v else dict_get d' k
  end.

(** [d[k] = v] *)
Fixpoint dict_set {V} (d : dict V) (k : string) (v : V) : dict V :=
  match d with
  | [] => [(k, v)]
  | (k', v') :: d' =>
      if String.eqb k k' then (k', v) :: d' else (k', v') :: dict_set d' k v
  end.

(** [d.get(k, default)] *)
Definition dict_get_default {V} (d : dict V) (k : string) (dflt : V) : V :=
  match dict_get d k with Some v => v | None => dflt end.

End PyDict.

(* ------------------------------------------------------------------ *)
(** ** The two field parsers.  The document libraries are the boundary
    of the embedding: a PDF is what [pdfplumber] yields per page (its
    tables, rows of cells that are a string or [None], and
    [page.extract_text()], a string or [None]); a DOCX is what
    [python-docx] yields (the texts of [doc.paragraphs] and, per table
    and row, the texts of [row.cells]). *)
Module Parsers.
Import PyStr Regex PyDict.
Open Scope string_scope.

Record pdf_page := {
  page_tables : list (list (list (option string)));
  page_text : option string
}.

Record docx_document := {
  doc_paragraphs : list string;
  doc_tables : list (list (list string))
}.

Definition fields_init : dict string :=
  [("Title", ""); ("Issue ID", ""); ("Description", "");
   ("Issue Impact", ""); ("Issue Root Cause", "")].

(** [fields.get(k, "")] *)
Definition fget (f : dict string) (k : string) : string :=
  dict_get_default f k "".

(** [fields[key] = " ".join(m.group(1).split())] when [m] matched. *)
Definition set_if_match (f : dict string) (key : string) (m : option string)
  : dict string :=
  match m with
  | Some g => dict_set f key (normalize_ws g)
  | None => f
  end.

(** *** [parse_issue_briefing_pdf_from_file] *)

(** [(c.strip().replace("\n", " ") if c else "")] *)
Definition pdf_clean_cell (c : option string) : string :=
  match c with
  | Some s => if truthy s then py_replace_nl (py_strip s) else ""
  | None => ""
  end.

(** The [while i < len(cells) - 1] loop of one row: cell [i] is the key,
    cell [i+1] the value, [i += 2]. *)
Fixpoint pdf_walk_cells (cells : list string) (kv : dict string)
  : dict string :=
  match cells with
  | c0 :: c1 :: rest =>
      let key := py_strip (py_rstrip_colon c0) in
      let value := py_strip c1 in
      pdf_walk_cells rest (if truthy key then dict_set kv key value else kv)
  | _ => kv
  end.

Definition pdf_walk_table (kv : dict string) (table : list (list (option string)))
  : dict string :=
  fold_left (fun kv row => pdf_walk_cells (map pdf_clean_cell row) kv) table kv.

Definition pdf_kv_map (pages : list pdf_page) : dict string :=
  fold_left (fun kv page => fold_left pdf_walk_table (page_tables page) kv)
            pages [].

(** [paragraph_text_parts]: the texts with [if raw:]. *)
Definition pdf_paragraph_parts (pages : list pdf_page) : list string :=
  flat_map (fun page =>
              match page_text page with
              | Some raw => if truthy raw then [raw] else []
              | None => []
              end) pages.

Definition pdf_combined (pages : list pdf_page) : string :=
  py_join nl (pdf_paragraph_parts pages).

Definition issue_nl_id : string := "Issue" ++ nl ++ "ID".

Definition pdf_desc_span (combined : string) : option string :=
  search_span "Description" "Issue Impact" 1 combined.

Definition pdf_impact_span (combined : string) : option string :=
  search_span "Issue Impact" "Issue Root Cause" 1 combined.

Definition pdf_root_span (combined : string) : option string :=
  search_span "Issue Root Cause" "Overall Issue Rating" 1 combined.

Definition parse_issue_briefing_pdf_from_file (pages : list pdf_page)
  : dict string :=
  let kv_map := pdf_kv_map pages in
  let f := dict_set fields_init "Title" (dict_get_default kv_map "Title" "") in
  let f := dict_set f "Issue ID"
             (dict_get_default kv_map "Issue ID"
                (dict_get_default kv_map issue_nl_id "")) in
  let combined := pdf_combined pages in
  let f := set_if_match f "Description" (pdf_desc_span combined) in
  let f := set_if_match f "Issue Impact" (pdf_impact_span combined) in
  set_if_match f "Issue Root Cause" (pdf_root_span combined).

(** *** [parse_icp_docx_from_file] *)

(** One row: [cells = [cell.text.strip() ...]], then pairs with
    [if key and value: kv_map[key.strip()] = value.strip()]. *)
Fixpoint docx_walk_cells (cells : list string) (kv : dict string)
  : dict string :=
  match cells with
  | c0 :: c1 :: rest =>
      let key := py_rstrip_colon c0 in
      let value := c1 in
      docx_walk_cells rest
        (if truthy key && truthy value
         then dict_set kv (py_strip key) (py_strip value) else kv)
  | _ => kv
  end.

Definition docx_walk_table (kv : dict string) (table : list (list string))
  : dict string :=
  fold_left (fun kv row => docx_walk_cells (map py_strip row) kv) table kv.

Definition docx_kv_map (doc : docx_document) : dict string :=
  fold_left docx_walk_table (doc_tables doc) [].

Definition docx_combined (doc : docx_document) : string :=
  let full_text := py_join nl (doc_paragraphs doc) in
  let table_text := py_join nl (concat (concat (doc_tables doc))) in
  full_text ++ nl ++ table_text.

Definition docx_desc_span (combined : string) : option string :=
  search_span "Issue Description:" "Issue Root Cause:" 0 combined.

Definition docx_root_span (combined : string) : option string :=
  search_span "Issue Root Cause:" "Issue Impact:" 0 combined.

Definition docx_impact_span (combined : string) : option string :=
  match search_span "Issue Impact:" "Background Context:" 0 combined with
  | Some g => Some g
  | None => search_span "Issue Impact:" "Section C:" 0 combined
  end.

Definition parse_icp_docx_from_file (doc : docx_document) : dict string :=
  let kv_map := docx_kv_map doc in
  let f := dict_set fields_init "Title"
             (dict_get_default kv_map "Issue Title" "") in
  let f := dict_set f "Issue ID"
             (dict_get_default kv_map "Source System Issue Reference" "") in
  let combined := docx_combined doc in
  let f := set_if_match f "Description" (docx_desc_span combined) in
  let f := set_if_match f "Issue Root Cause" (docx_root_span combined) in
  set_if_match f "Issue Impact" (docx_impact_span combined).

End Parsers.

(* ------------------------------------------------------------------ *)
(** ** [text_similarity], [compute_similarity], [to_match_label] and the
    result rows of [main].  [TfidfVectorizer()] is taken with its default
    parameters: lower-casing, token pattern [(?u)\b\w\w+\b] (maximal runs
    of two or more word characters), raw term counts, smoothed
    [idf(t) = ln((1 + n) / (1 + df(t))) + 1] with [n = 2] documents, and
    rows scaled to unit l2 norm; [fit] raises [ValueError] (empty
    vocabulary) when no document has a token.  [cosine_similarity]
    l2-normalises both rows again and takes their dot product; a zero row
    is left as it is.  Scores are exact reals: floating-point rounding is
    outside the model.  The vocabulary is kept in first-occurrence order;
    the library sorts it, which permutes the coordinates of both rows
    alike and changes no norm or dot product. *)
Module Similarity.
Import PyStr PyDict Parsers.
Open Scope R_scope.

(** [\w] on ASCII: [[0-9A-Za-z_]]. *)
Definition is_word (c : ascii) : bool :=
  let n := nat_of_ascii c in
  (Nat.leb 48 n && Nat.leb n 57) || (Nat.leb 65 n && Nat.leb n 90) ||
  (Nat.leb 97 n && Nat.leb n 122) || Nat.eqb n 95.

(** [str.lower] on ASCII. *)
Definition lower_char (c : ascii) : ascii :=
  let n := nat_of_ascii c in
  if Nat.leb 65 n && Nat.leb n 90 then ascii_of_nat (n + 32) else c.

Definition emit_run (cur : list ascii) (rest : list (list ascii)) :=
  if Nat.leb 2 (List.length cur) then rev cur :: rest else rest.

(** [re.findall(r"(?u)\b\w\w+\b", doc)] *)
Fixpoint word_runs (l cur : list ascii) : list (list ascii) :=
  match l with
  | [] => emit_run cur []
  | c :: l' =>
      if is_word c then word_runs l' (c :: cur)
      else emit_run cur (word_runs l' [])
  end.

(** The vectorizer's analyzer: lower-case, then extract tokens. *)
Definition tokenize (doc : string) : list string :=
  map string_of_list_ascii
      (word_runs (map lower_char (list_ascii_of_string doc)) []).

(** [fit([a, b])]: the vocabulary of the two documents. *)
Definition vocabulary (a b : string) : list string :=
  nodup string_dec (app (tokenize a) (tokenize b)).

Definition n_docs : nat := 2.

Definition doc_freq (a b t : string) : nat :=
  (if in_dec string_dec t (tokenize a) then 1 else 0) +
  (if in_dec string_dec t (tokenize b) then 1 else 0).

Definition idf (a b t : string) : R :=
  ln (INR (1 + n_docs) / INR (1 + doc_freq a b t)) + 1.

Definition tf (doc t : string) : R := INR (count_occ string_dec (tokenize doc) t).

(** Unnormalised tf-idf row of [doc] over the vocabulary [V]. *)
Definition tfidf_row (V : list string) (a b doc : string) : list R :=
  map (fun t => tf doc t * idf a b t) V.

Definition sumR (l : list R) : R := fold_right Rplus 0 l.

(** [sklearn.preprocessing.normalize(x, norm="l2")]: a zero row stays. *)
Definition normalize (v : list R) : list R :=
  let n := sqrt (sumR (map (fun x => x * x) v)) in
  if Req_dec_T n 0 then v else map (fun x => x / n) v.

(** [normalize] read pointwise on a row indexed by the vocabulary [V]. *)
Definition normalize_fun (V : list string) (f : string -> R) (t : string) : R :=
  let n := sqrt (sumR (map (fun t => f t * f t) V)) in
  if Req_dec_T n 0 then f t else f t / n.

Definition dot (u v : list R) : R :=
  sumR (map (fun p => fst p * snd p) (combine u v)).

(** [cosine_similarity(X, Y)[0][0]] for one-row [X] and [Y]. *)
Definition cosine_similarity (x y : list R) : R :=
  dot (normalize x) (normalize y).

(** [text_similarity(a, b)]; [None] is the [ValueError] raised by [fit]. *)
Definition text_similarity (a b : string) : option R :=
  if negb (truthy a) || negb (truthy b) then Some 0
  else
    let V := vocabulary a b in
    match V with
    | [] => None
    | _ =>
        let xa := normalize (tfidf_row V a b a) in
        let xb := normalize (tfidf_row V a b b) in
        Some (cosine_similarity xa xb)
    end.

(** [1.0 if f1.get("Issue ID") == f2.get("Issue ID") else 0.0] *)
Definition issue_id_score (f1 f2 : dict string) : R :=
  let eq :=
    match dict_get f1 "Issue ID"%string, dict_get f2 "Issue ID"%string with
    | Some x, Some y => String.eqb x y
    | None, None => true
    | _, _ => false
    end in
  if eq then 1 else 0.

(** Python's [sum(values)]. *)
Definition py_sum (l : list R) : R := fold_left Rplus l 0.

Definition compute_similarity (f1 f2 : dict string) : option (dict R) :=
  let s := dict_set [] "Issue ID"%string (issue_id_score f1 f2) in
  match text_similarity (fget f1 "Title") (fget f2 "Title") with
  | None => None
  | Some t =>
  let s := dict_set s "Title"%string t in
  match text_similarity (fget f1 "Description") (fget f2 "Description") with
  | None => None
  | Some d =>
  let s := dict_set s "Description"%string d in
  match text_similarity (fget f1 "Issue Root Cause")
                        (fget f2 "Issue Root Cause") with
  | None => None
  | Some rc =>
  let s := dict_set s "Issue Root Cause"%string rc in
  match text_similarity (fget f1 "Issue Impact") (fget f2 "Issue Impact") with
  | None => None
  | Some im =>
  let s := dict_set s "Issue Impact"%string im in
  Some (dict_set s "Overall"%string
          (py_sum (map snd s) / INR (List.length s)))
  end end end end.

(** [to_match_label(score, threshold)] *)
Definition to_match_label (score threshold : R) : string :=
  if Rle_dec threshold score then "Match" else "Mismatch".

(** The threshold passed by [main] for a field. *)
Definition row_threshold (field : string) (threshold : R) : R :=
  if negb (String.eqb field "Issue ID") then threshold else 1.

Definition result_fields : list string :=
  ["Issue ID"; "Title"; "Description"; "Issue Root Cause"; "Issue Impact"]%string.

(** The [(Field, Result)] columns of [sim_rows] in [main]; [None] is a
    [KeyError] on [scores[field]]. *)
Fixpoint field_rows (fields : list string) (scores : dict R) (threshold : R)
  : option (list (string * string)) :=
  match fields with
  | [] => Some []
  | field :: fields' =>
      match dict_get scores field with
      | None => None
      | Some score =>
          match field_rows fields' scores threshold with
          | None => None
          | Some rows =>
              Some ((field, to_match_label score (row_threshold field threshold))
                    :: rows)
          end
      end
  end.

Definition sim_rows (scores : dict R) (threshold : R)
  : option (list (string * string)) :=
  match field_rows result_fields scores threshold with
  | None => None
  | Some rows =>
      match dict_get scores "Overall"%string with
      | None => None
      | Some o => Some (app rows [("Overall"%string, to_match_label o threshold)])
      end
  end.

End Similarity.

(* ------------------------------------------------------------------ *)
(** ** Vocabulary for the statements about the parsers: the pairs a
    table walker visits, and the value of a label's last occurrence;
    and, following the wording of the spec (section 4.3, item 3), the
    floating-label pre-pass that the spec describes. *)
Module Walk.
Import PyStr PyDict Parsers.
Open Scope string_scope.

(** [(cells[0], cells[1]), (cells[2], cells[3]), ...] *)
Fixpoint cell_pairs {A : Type} (cells : list A) : list (A * A) :=
  match cells with
  | c0 :: c1 :: rest => (c0, c1) :: cell_pairs rest
  | _ => []
  end.

(** The value of the last pair labelled [k] (or [acc] when none is). *)
Definition last_value_from (acc : option string) (k : string)
  (pairs : list (string * string)) : option string :=
  fold_left (fun acc kv => if String.eqb k (fst kv) then Some (snd kv) else acc)
            pairs acc.

Definition last_value (k : string) (pairs : list (string * string))
  : option string := last_value_from None k pairs.

(** All rows of all tables of all pages, in document order. *)
Definition pdf_rows (pages : list pdf_page) : list (list (option string)) :=
  concat (concat (map page_tables pages)).

(** The (label, value) entries a PDF row contributes. *)
Definition pdf_row_entries (row : list (option string))
  : list (string * string) :=
  filter (fun kv => truthy (fst kv))
    (map (fun p => (py_strip (py_rstrip_colon (fst p)), py_strip (snd p)))
         (cell_pairs (map pdf_clean_cell row))).

(** The (label, value) entries a DOCX row contributes. *)
Definition docx_row_entries (row : list string) : list (string * string) :=
  map (fun p => (py_strip (py_rstrip_colon (fst p)), py_strip (snd p)))
    (filter (fun p => truthy (py_rstrip_colon (fst p)) && truthy (snd p))
            (cell_pairs (map py_strip row))).

(** [text.split("\n")] *)
Fixpoint split_lines_aux (l cur : list ascii) : list string :=
  match l with
  | [] => [string_of_list_ascii (rev cur)]
  | c :: l' =>
      if Ascii.eqb c nl_char
      then string_of_list_ascii (rev cur) :: split_lines_aux l' []
      else split_lines_aux l' (c :: cur)
  end.

Definition split_lines (s : string) : list string :=
  split_lines_aux (list_ascii_of_string s) [].

(** Modelled from the spec: the floating-label pre-pass of section 4.3,
    which has no counterpart in [src/App_per.py].  Every line that
    consists solely of one of [labels] (up to surrounding whitespace) is
    deleted; every other line is kept as it is. *)
Definition spec_strip_label_lines (labels : list string) (blob : string)
  : string :=
  py_join nl
    (filter (fun line => negb (existsb (String.eqb (py_strip line)) labels))
            (split_lines blob)).

(** [s] has no newline character. *)
Definition no_nl (s : string) : Prop := ~ In nl_char (list_ascii_of_string s).

(** Cells of a row laid out from its (label, value) pairs. *)
Definition flatten_pairs (pairs : list (string * string)) : list string :=
  flat_map (fun p => [fst p; snd p]) pairs.

Definition pdf_label_phrases : list string :=
  ["Title"; "Issue ID"; "Description"; "Issue Impact"; "Issue Root Cause"].

(** No occurrence of [opener] starts at a position of [pre] in [pre ++ s]:
    [pre] holds no earlier occurrence of the label. *)
Fixpoint no_start_in (opener pre s : string) : bool :=
  match pre with
  | EmptyString => true
  | String c pre' =>
      negb (starts_with opener (String c (pre' ++ s))) && no_start_in opener pre' s
  end.

(** (field, opening label, closing marker) of the PDF and DOCX span regexes
    (for the DOCX Issue Impact, its first closing marker). *)
Definition pdf_span_fields : list (string * string * string) :=
  [("Description", "Description", "Issue Impact");
   ("Issue Impact", "Issue Impact", "Issue Root Cause");
   ("Issue Root Cause", "Issue Root Cause", "Overall Issue Rating")].

Definition docx_span_fields : list (string * string * string) :=
  [("Description", "Issue Description:", "Issue Root Cause:");
   ("Issue Root Cause", "Issue Root Cause:", "Issue Impact:");
   ("Issue Impact", "Issue Impact:", "Background Context:")].

End Walk.

(* ------------------------------------------------------------------ *)
(** ** The rest of the app: the raw-text extractors shown in the debug
    view, the key-field table [rows_kv] and the Compare action of
    [main] (parse both documents, score them, classify the scores). *)
Module App.
Import PyStr PyDict Parsers Similarity.
Open Scope string_scope.

(** [page.extract_text() or ""] *)
Definition page_text_or_empty (page : pdf_page) : string :=
  match page_text page with Some s => s | None => "" end.

(** [extract_text_from_pdf] *)
Definition extract_text_from_pdf (pages : list pdf_page) : string :=
  py_join nl (map page_text_or_empty pages).

(** [extract_text_from_docx]: the paragraphs, then one line per table
    row with its cells joined by [" | "]. *)
Definition extract_text_from_docx (doc : docx_document) : string :=
  py_join nl (app (doc_paragraphs doc)
                  (map (py_join " | ") (concat (doc_tables doc)))).

Definition kv_attributes : list string :=
  ["Title"; "Issue ID"; "Description"; "Issue Root Cause"; "Issue Impact"].

(** [rows_kv]: (Attribute, IBF (PDF), ICP (DOCX)) per attribute. *)
Definition rows_kv (f1 f2 : dict string) : list (string * string * string) :=
  map (fun a => (a, fget f1 a, fget f2 a)) kv_attributes.

(** The Compare action: the (Field, Result) rows of the similarity
    table; [None] is an exception raised on the way. *)
Definition compare_documents (pages : list pdf_page) (doc : docx_document)
  (threshold : R) : option (list (string * string)) :=
  match compute_similarity (parse_issue_briefing_pdf_from_file pages)
                           (parse_icp_docx_from_file doc) with
  | Some scores => sim_rows scores threshold
  | None => None
  end.

End App.

(* ================================================================== *)
(** * Facts about the parsers *)
Module ParserFacts.
Import PyStr Regex PyDict Parsers Walk.
Open Scope string_scope.

Lemma dict_get_set {V} (d : dict V) k v k' :
  dict_get (dict_set d k v) k' =
  if String.eqb k' k then Some v else dict_get d k'.
Proof.
  induction d as [|[k0 v0] d IH]; simpl.
  - reflexivity.
  - destruct (String.eqb_spec k k0) as [->|Hne]; simpl.
    + destruct (String.eqb k' k0); reflexivity.
    + rewrite IH.
      destruct (String.eqb_spec k' k0), (String.eqb_spec k' k);
        subst; try congruence; reflexivity.
Qed.

Lemma set_if_match_other f key m k :
  k <> key -> dict_get (set_if_match f key m) k = dict_get f k.
Proof.
  intros Hne; destruct m as [g|]; simpl; [|reflexivity].
  rewrite dict_get_set.
  destruct (String.eqb_spec k key); [contradiction|reflexivity].
Qed.

Lemma fold_left_concat {A B} (f : A -> B -> A) (L : list (list B)) a :
  fold_left f (concat L) a = fold_left (fun a l => fold_left f l a) L a.
Proof.
  revert a; induction L as [|l L IH]; intros a; simpl; [reflexivity|].
  rewrite fold_left_app; apply IH.
Qed.

Lemma fold_left_map_fun {A B C} (f : A -> B -> A) (g : C -> B) l a :
  fold_left f (map g l) a = fold_left (fun a x => f a (g x)) l a.
Proof.
  revert a; induction l as [|x l IH]; intros a; simpl; [reflexivity|apply IH].
Qed.

Lemma last_value_from_app acc k l1 l2 :
  last_value_from acc k (app l1 l2) =
  last_value_from (last_value_from acc k l1) k l2.
Proof. unfold last_value_from; apply fold_left_app. Qed.

Lemma last_value_from_absent acc k es :
  (forall e, In e es -> fst e <> k) -> last_value_from acc k es = acc.
Proof.
  revert acc; induction es as [|e es IH]; intros acc H; simpl; [reflexivity|].
  destruct (String.eqb_spec k (fst e)) as [Heq|_].
  - exfalso; apply (H e); [left; reflexivity|symmetry; exact Heq].
  - apply IH; intros e' He'; apply H; right; exact He'.
Qed.

Lemma cell_pairs_In_fst {A} (cells : list A) c0 c1 :
  In (c0, c1) (cell_pairs cells) -> In c0 cells.
Proof.
  revert cells; fix IH 1; intros [|x [|y rest]] Hin; simpl in Hin.
  - contradiction.
  - contradiction.
  - destruct Hin as [Heq|Hin].
    + inversion Heq; subst; left; reflexivity.
    + right; right; exact (IH rest Hin).
Qed.

(** A row walk is a left fold over the row's cell pairs. *)
Lemma pdf_walk_cells_fold cells kv :
  pdf_walk_cells cells kv =
  fold_left (fun kv p =>
               let key := py_strip (py_rstrip_colon (fst p)) in
               if truthy key then dict_set kv key (py_strip (snd p)) else kv)
            (cell_pairs cells) kv.
Proof.
  revert cells kv; fix IH 1; intros [|c0 [|c1 rest]] kv; simpl;
    [reflexivity|reflexivity|apply IH].
Qed.

Lemma docx_walk_cells_fold cells kv :
  docx_walk_cells cells kv =
  fold_left (fun kv p =>
               if truthy (py_rstrip_colon (fst p)) && truthy (snd p)
               then dict_set kv (py_strip (py_rstrip_colon (fst p)))
                                (py_strip (snd p))
               else kv)
            (cell_pairs cells) kv.
Proof.
  revert cells kv; fix IH 1; intros [|c0 [|c1 rest]] kv; simpl;
    [reflexivity|reflexivity|apply IH].
Qed.

(** The map after walking PDF rows: for each label, its last entry. *)
Lemma pdf_rows_last_value rows kv k :
  dict_get (fold_left (fun kv row => pdf_walk_cells (map pdf_clean_cell row) kv)
                      rows kv) k =
  last_value_from (dict_get kv k) k (flat_map pdf_row_entries rows).
Proof.
  revert kv; induction rows as [|row rows IH]; intros kv; simpl; [reflexivity|].
  rewrite IH, last_value_from_app; f_equal.
  rewrite pdf_walk_cells_fold; unfold pdf_row_entries.
  generalize (cell_pairs (map pdf_clean_cell row)) as ps.
  intros ps; revert kv; induction ps as [|p ps IHp]; intros kv; simpl;
    [reflexivity|].
  rewrite IHp.
  destruct (truthy (py_strip (py_rstrip_colon (fst p)))); simpl;
    [|reflexivity].
  rewrite dict_get_set; reflexivity.
Qed.

Lemma docx_rows_last_value rows kv k :
  dict_get (fold_left (fun kv row => docx_walk_cells (map py_strip row) kv)
                      rows kv) k =
  last_value_from (dict_get kv k) k (flat_map docx_row_entries rows).
Proof.
  revert kv; induction rows as [|row rows IH]; intros kv; simpl; [reflexivity|].
  rewrite IH, last_value_from_app; f_equal.
  rewrite docx_walk_cells_fold; unfold docx_row_entries.
  generalize (cell_pairs (map py_strip row)) as ps.
  intros ps; revert kv; induction ps as [|p ps IHp]; intros kv; simpl;
    [reflexivity|].
  destruct (truthy (py_rstrip_colon (fst p)) && truthy (snd p)); simpl;
    rewrite IHp; [|reflexivity].
  rewrite dict_get_set; reflexivity.
Qed.

Lemma pdf_kv_map_rows pages :
  pdf_kv_map pages =
  fold_left (fun kv row => pdf_walk_cells (map pdf_clean_cell row) kv)
            (pdf_rows pages) [].
Proof.
  unfold pdf_kv_map, pdf_rows.
  rewrite !fold_left_concat, fold_left_map_fun.
  reflexivity.
Qed.

Lemma docx_kv_map_rows doc :
  docx_kv_map doc =
  fold_left (fun kv row => docx_walk_cells (map py_strip row) kv)
            (concat (doc_tables doc)) [].
Proof.
  unfold docx_kv_map; rewrite fold_left_concat; reflexivity.
Qed.

(** *** Newline-free keys *)

Lemma In_lstrip_l p l c : In c (lstrip_l p l) -> In c l.
Proof.
  induction l as [|x l IH]; simpl; [tauto|].
  destruct (p x); simpl; [intros H; right; exact (IH H)|tauto].
Qed.

Lemma In_rstrip_l p l c : In c (rstrip_l p l) -> In c l.
Proof.
  unfold rstrip_l; intros H.
  apply in_rev in H; apply In_lstrip_l in H; apply in_rev; exact H.
Qed.

Lemma py_strip_no_nl s : no_nl s -> no_nl (py_strip s).
Proof.
  unfold no_nl, py_strip; rewrite list_ascii_of_string_of_list_ascii.
  intros H Hin; apply H, (In_lstrip_l _ _ _ (In_rstrip_l _ _ _ Hin)).
Qed.

Lemma py_rstrip_colon_no_nl s : no_nl s -> no_nl (py_rstrip_colon s).
Proof.
  unfold no_nl, py_rstrip_colon; rewrite list_ascii_of_string_of_list_ascii.
  intros H Hin; apply H, (In_rstrip_l _ _ _ Hin).
Qed.

Lemma py_replace_nl_no_nl s : no_nl (py_replace_nl s).
Proof.
  unfold no_nl, py_replace_nl; rewrite list_ascii_of_string_of_list_ascii.
  intros Hin; apply in_map_iff in Hin as [x [Hx _]].
  destruct (Ascii.eqb_spec x nl_char) as [_|Hne].
  - discriminate Hx.
  - exact (Hne Hx).
Qed.

Lemma pdf_clean_cell_no_nl c : no_nl (pdf_clean_cell c).
Proof.
  destruct c as [s|]; simpl.
  - destruct (truthy s); [apply py_replace_nl_no_nl|unfold no_nl; simpl; tauto].
  - unfold no_nl; simpl; tauto.
Qed.

Lemma pdf_row_entries_no_nl row e :
  In e (pdf_row_entries row) -> no_nl (fst e).
Proof.
  unfold pdf_row_entries; intros Hin.
  apply filter_In in Hin as [Hin _].
  apply in_map_iff in Hin as [[c0 c1] [<- Hp]]; simpl.
  apply py_strip_no_nl, py_rstrip_colon_no_nl.
  apply cell_pairs_In_fst in Hp.
  apply in_map_iff in Hp as [c [<- _]].
  apply pdf_clean_cell_no_nl.
Qed.

Lemma pdf_kv_map_no_nl pages k :
  ~ no_nl k -> dict_get (pdf_kv_map pages) k = None.
Proof.
  intros Hk; rewrite pdf_kv_map_rows, pdf_rows_last_value; simpl.
  apply last_value_from_absent; intros e He Heq.
  apply in_flat_map in He as [row [_ He]].
  apply pdf_row_entries_no_nl in He; rewrite Heq in He; contradiction.
Qed.

(** *** Non-empty DOCX labels *)

Lemma lstrip_l_nonempty p l c :
  In c l -> p c = false -> lstrip_l p l <> [].
Proof.
  induction l as [|x l IH]; simpl; [tauto|].
  intros [->|Hin] Hc.
  - rewrite Hc; discriminate.
  - destruct (p x); [exact (IH Hin Hc)|discriminate].
Qed.

Lemma rstrip_l_nonempty p l c :
  In c l -> p c = false -> rstrip_l p l <> [].
Proof.
  unfold rstrip_l; intros Hin Hc Heq.
  apply (f_equal (@rev ascii)) in Heq; rewrite rev_involutive in Heq.
  apply in_rev in Hin.
  exact (lstrip_l_nonempty p (rev l) c Hin Hc Heq).
Qed.

Lemma lstrip_l_suffix p l : exists s, l = app s (lstrip_l p l).
Proof.
  induction l as [|x l IH]; simpl.
  - exists []; reflexivity.
  - destruct (p x).
    + destruct IH as [s Hs]; exists (x :: s); simpl; f_equal; exact Hs.
    + exists []; reflexivity.
Qed.

Lemma rstrip_l_prefix p l : exists s, l = app (rstrip_l p l) s.
Proof.
  destruct (lstrip_l_suffix p (rev l)) as [s Hs].
  exists (rev s); unfold rstrip_l.
  rewrite <- rev_app_distr, <- Hs, rev_involutive; reflexivity.
Qed.

(** The first character of a left-stripped list is not stripped. *)
Definition head_keeps (p : ascii -> bool) (l : list ascii) : Prop :=
  match l with [] => True | c :: _ => p c = false end.

Lemma lstrip_l_head p l : head_keeps p (lstrip_l p l).
Proof.
  induction l as [|x l IH]; simpl; [exact I|].
  destruct (p x) eqn:Hx; [exact IH|exact Hx].
Qed.

Lemma prefix_head p l r s :
  head_keeps p l -> l = app r s -> head_keeps p r.
Proof.
  destruct r as [|d r]; simpl; [tauto|].
  intros H ->; exact H.
Qed.

Lemma lstrip_l_keep p l : head_keeps p l -> lstrip_l p l = l.
Proof. destruct l as [|c l]; simpl; [reflexivity|intros ->; reflexivity]. Qed.

Lemma docx_label_nonempty x :
  truthy (py_rstrip_colon (py_strip x)) = true ->
  py_strip (py_rstrip_colon (py_strip x)) <> "".
Proof.
  unfold py_strip at 2 3, py_rstrip_colon, py_strip.
  rewrite !list_ascii_of_string_of_list_ascii.
  set (L := rstrip_l is_space (lstrip_l is_space (list_ascii_of_string x))).
  assert (HL : head_keeps is_space L).
  { destruct (rstrip_l_prefix is_space (lstrip_l is_space (list_ascii_of_string x)))
      as [s Hs].
    exact (prefix_head _ _ _ _ (lstrip_l_head _ _) Hs). }
  set (M := rstrip_l (fun c => Ascii.eqb c ":"%char) L).
  assert (HM : head_keeps is_space M).
  { destruct (rstrip_l_prefix (fun c => Ascii.eqb c ":"%char) L) as [s Hs].
    exact (prefix_head _ _ _ _ HL Hs). }
  destruct M as [|c m] eqn:HMeq; [simpl; discriminate|].
  intros _; simpl in HM.
  rewrite lstrip_l_keep by exact HM.
  intros Heq.
  assert (Hne : rstrip_l is_space (c :: m) <> [])
    by (apply (rstrip_l_nonempty _ _ c); [left; reflexivity|exact HM]).
  destruct (rstrip_l is_space (c :: m)); [apply Hne; reflexivity|discriminate].
Qed.

Lemma docx_row_entries_label row e :
  In e (docx_row_entries row) -> fst e <> "".
Proof.
  unfold docx_row_entries; intros Hin.
  apply in_map_iff in Hin as [[c0 c1] [<- Hp]]; simpl.
  apply filter_In in Hp as [Hp Ht]; simpl in Ht.
  apply andb_true_iff in Ht as [Ht _].
  apply cell_pairs_In_fst in Hp.
  apply in_map_iff in Hp as [x [<- _]].
  apply docx_label_nonempty; exact Ht.
Qed.

Lemma pdf_row_entries_label row e :
  In e (pdf_row_entries row) -> fst e <> "".
Proof.
  unfold pdf_row_entries; intros Hin.
  apply filter_In in Hin as [_ Ht].
  destruct (fst e); [discriminate|discriminate].
Qed.

(** *** Span extraction on a blob whose label stands on its own line *)

Lemma str_app_assoc (a b c : string) : (a ++ b) ++ c = a ++ (b ++ c).
Proof. induction a as [|x a IH]; simpl; [reflexivity|rewrite IH; reflexivity]. Qed.

Lemma str_app_empty (a : string) : a ++ "" = a.
Proof. induction a as [|x a IH]; simpl; [reflexivity|rewrite IH; reflexivity]. Qed.

Lemma list_ascii_of_string_app (a b : string) :
  list_ascii_of_string (a ++ b) =
  app (list_ascii_of_string a) (list_ascii_of_string b).
Proof. induction a as [|x a IH]; simpl; [reflexivity|rewrite IH; reflexivity]. Qed.

Lemma starts_with_app_self p s : starts_with p (p ++ s) = true.
Proof.
  induction p as [|c p IH]; simpl; [reflexivity|].
  rewrite Ascii.eqb_refl; exact IH.
Qed.

Lemma str_drop_length_app p s : str_drop (String.length p) (p ++ s) = s.
Proof. induction p as [|c p IH]; simpl; [reflexivity|exact IH]. Qed.

(** A newline-free prefix of [x ++ "\n" ++ y] is a prefix of [x]. *)
Lemma starts_with_before_nl p x y :
  forallb (fun c => negb (Ascii.eqb c nl_char)) (list_ascii_of_string p) = true ->
  starts_with p (x ++ String nl_char y) = true -> starts_with p x = true.
Proof.
  revert x; induction p as [|c p IH]; intros x Hp Hs; [reflexivity|].
  simpl in Hp; apply andb_true_iff in Hp as [Hc Hp].
  destruct x as [|d x]; simpl in Hs |- *.
  - apply andb_true_iff in Hs as [Hs _].
    apply Ascii.eqb_eq in Hs; subst; rewrite Ascii.eqb_refl in Hc; discriminate.
  - apply andb_true_iff in Hs as [Hcd Hs].
    rewrite Hcd; exact (IH x Hp Hs).
Qed.

(** [(.+?)CLOSE] takes the whole line [d] and its newline when the next
    line starts with CLOSE and [d] does not contain CLOSE. *)
Lemma lazy_take_line closer c0 closer' d rest :
  closer = String c0 closer' -> Ascii.eqb c0 nl_char = false ->
  forallb (fun c => negb (Ascii.eqb c nl_char)) (list_ascii_of_string closer)
    = true ->
  d <> "" -> contains closer d = false ->
  lazy_take closer (d ++ String nl_char (closer ++ rest)) = Some (d ++ nl).
Proof.
  intros Hcl Hc0 Hfree.
  induction d as [|c d IH]; intros Hd Hcon; [contradiction|].
  simpl in Hcon; apply orb_false_iff in Hcon as [_ Hcon].
  simpl.
  destruct d as [|c' d'].
  - cbn [String.append].
    assert (Hnl : starts_with closer (String nl_char (closer ++ rest)) = false).
    { rewrite Hcl at 1; simpl; rewrite Hc0; reflexivity. }
    rewrite Hnl; simpl; rewrite starts_with_app_self; reflexivity.
  - assert (Hsw : starts_with closer (String c' d' ++ String nl_char (closer ++ rest))
                  = false).
    { destruct (starts_with closer (String c' d' ++ String nl_char (closer ++ rest)))
        eqn:E; [|reflexivity].
      apply starts_with_before_nl in E; [|exact Hfree].
      simpl in Hcon; rewrite E in Hcon; discriminate. }
    rewrite Hsw, IH by (discriminate || exact Hcon); reflexivity.
Qed.

Lemma lead_ws_after_line d s :
  d <> "" -> lead_ws d = 0 -> lead_ws (String nl_char (d ++ s)) = 1.
Proof.
  intros Hd Hws; destruct d as [|c d]; [contradiction|].
  simpl in Hws |- *; destruct (is_space c); [discriminate|reflexivity].
Qed.

Lemma search_span_unfold opener closer lo s :
  search_span opener closer lo s =
  match match_at opener closer lo s with
  | Some g => Some g
  | None =>
      match s with
      | EmptyString => None
      | String _ s' => search_span opener closer lo s'
      end
  end.
Proof. destruct s; reflexivity. Qed.

(** [re.search(OPEN\s+(.+?)CLOSE)] (or [\s*]) on the blob
    [OPEN "\n" d "\n" CLOSE rest]: the label line OPEN is the anchor and the
    group is the line [d] with its newline. *)
Lemma search_span_label_line opener closer c0 closer' lo d rest :
  closer = String c0 closer' -> Ascii.eqb c0 nl_char = false ->
  forallb (fun c => negb (Ascii.eqb c nl_char)) (list_ascii_of_string closer)
    = true ->
  lo <= 1 -> d <> "" -> lead_ws d = 0 -> contains closer d = false ->
  search_span opener closer lo (opener ++ nl ++ d ++ nl ++ closer ++ rest)
  = Some (d ++ nl).
Proof.
  intros Hcl Hc0 Hfree Hlo Hd Hws Hcon.
  rewrite search_span_unfold.
  unfold match_at; rewrite starts_with_app_self, str_drop_length_app; cbv zeta.
  change (nl ++ d ++ nl ++ closer ++ rest)
    with (String nl_char (d ++ String nl_char (closer ++ rest))).
  rewrite (lead_ws_after_line d _ Hd Hws).
  replace (Nat.leb lo 1) with true by (symmetry; apply Nat.leb_le; exact Hlo).
  cbn [ws_backtrack str_drop].
  rewrite (lazy_take_line closer c0 closer' d rest Hcl Hc0 Hfree Hd Hcon).
  reflexivity.
Qed.

Lemma split_ws_aux_trailing_space l cur c :
  is_space c = true -> split_ws_aux (app l [c]) cur = split_ws_aux l cur.
Proof.
  intros Hc; revert cur; induction l as [|x l IH]; intros cur; simpl.
  - rewrite Hc; reflexivity.
  - destruct (is_space x); rewrite IH; reflexivity.
Qed.

Lemma normalize_ws_trailing_nl d : normalize_ws (d ++ nl) = normalize_ws d.
Proof.
  unfold normalize_ws, py_split; rewrite list_ascii_of_string_app; simpl.
  rewrite split_ws_aux_trailing_space by reflexivity; reflexivity.
Qed.

(** Positions of [pre] where no occurrence of the opener starts are
    skipped by [re.search]. *)
Lemma search_span_skip opener closer lo pre s :
  no_start_in opener pre s = true ->
  search_span opener closer lo (pre ++ s) = search_span opener closer lo s.
Proof.
  induction pre as [|c pre IH]; intros H; [reflexivity|].
  cbn [no_start_in] in H; apply andb_true_iff in H as [Hn H].
  apply negb_true_iff in Hn.
  change (String c pre ++ s) with (String c (pre ++ s)).
  rewrite search_span_unfold; unfold match_at; rewrite Hn.
  exact (IH H).
Qed.

Lemma lead_ws_after_sep sep d s :
  is_space sep = true -> d <> "" -> lead_ws d = 0 ->
  lead_ws (String sep (d ++ s)) = 1.
Proof.
  intros Hsep Hd Hws; destruct d as [|c d]; [contradiction|].
  simpl in Hws |- *; rewrite Hsep; destruct (is_space c); [discriminate|reflexivity].
Qed.

(** [re.search(OPEN\s+(.+?)CLOSE)] (or [\s*]) on a blob whose first
    occurrence of OPEN is followed by one whitespace character [sep] (a
    newline when OPEN stands alone on its line, a space when it is inside a
    longer line), then the line [d], then a line starting with CLOSE: the
    group is [d] with its newline. *)
Lemma search_span_first_label opener closer c0 closer' lo pre sep d rest :
  closer = String c0 closer' -> Ascii.eqb c0 nl_char = false ->
  forallb (fun c => negb (Ascii.eqb c nl_char)) (list_ascii_of_string closer)
    = true ->
  lo <= 1 ->
  no_start_in opener pre (opener ++ String sep (d ++ nl ++ closer ++ rest))
    = true ->
  is_space sep = true -> d <> "" -> lead_ws d = 0 -> contains closer d = false ->
  search_span opener closer lo
    (pre ++ opener ++ String sep (d ++ nl ++ closer ++ rest))
  = Some (d ++ nl).
Proof.
  intros Hcl Hc0 Hfree Hlo Hpre Hsep Hd Hws Hcon.
  rewrite (search_span_skip _ _ _ _ _ Hpre).
  rewrite search_span_unfold.
  unfold match_at; rewrite starts_with_app_self, str_drop_length_app; cbv zeta.
  change (nl ++ closer ++ rest) with (String nl_char (closer ++ rest)).
  rewrite (lead_ws_after_sep sep d _ Hsep Hd Hws).
  replace (Nat.leb lo 1) with true by (symmetry; apply Nat.leb_le; exact Hlo).
  cbn [ws_backtrack str_drop].
  rewrite (lazy_take_line closer c0 closer' d rest Hcl Hc0 Hfree Hd Hcon).
  reflexivity.
Qed.

Lemma pdf_parse_spans pages :
  let P := parse_issue_briefing_pdf_from_file pages in
  let c := pdf_combined pages in
  fget P "Description" =
    match pdf_desc_span c with Some g => normalize_ws g | None => "" end /\
  fget P "Issue Impact" =
    match pdf_impact_span c with Some g => normalize_ws g | None => "" end /\
  fget P "Issue Root Cause" =
    match pdf_root_span c with Some g => normalize_ws g | None => "" end.
Proof.
  unfold parse_issue_briefing_pdf_from_file, fget, dict_get_default; cbv zeta.
  destruct (pdf_desc_span _), (pdf_impact_span _), (pdf_root_span _);
    cbn [set_if_match]; rewrite !dict_get_set; repeat split; reflexivity.
Qed.

Lemma docx_parse_spans doc :
  let D := parse_icp_docx_from_file doc in
  let c := docx_combined doc in
  fget D "Description" =
    match docx_desc_span c with Some g => normalize_ws g | None => "" end /\
  fget D "Issue Impact" =
    match docx_impact_span c with Some g => normalize_ws g | None => "" end /\
  fget D "Issue Root Cause" =
    match docx_root_span c with Some g => normalize_ws g | None => "" end.
Proof.
  unfold parse_icp_docx_from_file, fget, dict_get_default; cbv zeta.
  destruct (docx_desc_span _), (docx_root_span _), (docx_impact_span _);
    cbn [set_if_match]; rewrite !dict_get_set; repeat split; reflexivity.
Qed.

Lemma pdf_parse_issue_id pages :
  fget (parse_issue_briefing_pdf_from_file pages) "Issue ID" =
  dict_get_default (pdf_kv_map pages) "Issue ID"
    (dict_get_default (pdf_kv_map pages) issue_nl_id "").
Proof.
  unfold fget, dict_get_default at 1, parse_issue_briefing_pdf_from_file.
  rewrite !set_if_match_other by discriminate.
  rewrite dict_get_set; reflexivity.
Qed.

Lemma docx_parse_issue_id doc :
  fget (parse_icp_docx_from_file doc) "Issue ID" =
  dict_get_default (docx_kv_map doc) "Source System Issue Reference" "".
Proof.
  unfold fget, dict_get_default at 1, parse_icp_docx_from_file.
  rewrite !set_if_match_other by discriminate.
  rewrite dict_get_set; reflexivity.
Qed.

End ParserFacts.

(* ================================================================== *)
(** * Claims about the parsers *)
Module ParserClaims.
Import PyStr Regex PyDict Parsers Walk ParserFacts.
Open Scope string_scope.

(** C10: the PDF parser builds keys only from cells cleaned with
    [replace("\n", " ")], so no key of its key-value map contains a
    newline; the fallback lookup of ["Issue\nID"] therefore never
    supplies a value, and the parsed Issue ID is the map's value for
    ["Issue ID"], or [""] when that key is absent. *)
Theorem pdf_issue_id_newline_fallback_unused (pages : list pdf_page) :
  (forall k, dict_get (pdf_kv_map pages) k = None \/ no_nl k) /\
  dict_get (pdf_kv_map pages) issue_nl_id = None /\
  fget (parse_issue_briefing_pdf_from_file pages) "Issue ID" =
  dict_get_default (pdf_kv_map pages) "Issue ID" "".
Proof.
  assert (Hid : dict_get (pdf_kv_map pages) issue_nl_id = None).
  { apply pdf_kv_map_no_nl; unfold no_nl, issue_nl_id; simpl.
    intros H; apply H; auto 10. }
  split; [|split; [exact Hid|]].
  - intros k.
    destruct (in_dec ascii_dec nl_char (list_ascii_of_string k)) as [Hin|Hnot].
    + left; apply pdf_kv_map_no_nl; intros H; exact (H Hin).
    + right; exact Hnot.
  - rewrite pdf_parse_issue_id.
    unfold dict_get_default at 2; rewrite Hid; reflexivity.
Qed.

(** C4 (counterexample): in the DOCX table walker a later occurrence of a
    label whose value cell is empty does not overwrite the earlier value.
    With the rows [["A:", "1"], ["A:", ""]] the last occurrence of label
    ["A"] carries the value [""], yet the map keeps ["1"]. *)
Lemma docx_walker_last_occurrence_counterexample :
  let doc := {| doc_paragraphs := [];
                doc_tables := [[["A:"; "1"]; ["A:"; ""]]] |} in
  dict_get (docx_kv_map doc) "A" = Some "1" /\
  last_value "A"
    (map (fun p => (py_strip (py_rstrip_colon (fst p)), py_strip (snd p)))
         (flat_map (fun row => cell_pairs (map py_strip row))
                   (concat (doc_tables doc)))) = Some "".
Proof. split; vm_compute; reflexivity. Qed.

(** C4 (amended): both table walkers pair consecutive cells (cell [i] as
    the label, with trailing colons stripped, cell [i+1] as the value, the
    index advancing by 2), so a row with an odd cell count leaves its last
    cell unused, and a pair whose label is empty inserts no key.  The PDF
    walker keeps, for each label, the value of its last occurrence across
    all rows and tables (also when that value is empty); the DOCX walker
    also skips a pair whose value cell is empty, so it keeps the value of
    the last occurrence with a non-empty value. *)
Theorem table_walkers_pairing_and_last_wins :
  (forall (pairs : list (string * string)) (x : string),
     cell_pairs (flatten_pairs pairs) = pairs /\
     cell_pairs (app (flatten_pairs pairs) [x]) = pairs) /\
  (forall pages k,
     dict_get (pdf_kv_map pages) k =
     last_value k (flat_map pdf_row_entries (pdf_rows pages))) /\
  (forall pages, dict_get (pdf_kv_map pages) "" = None) /\
  (forall doc k,
     dict_get (docx_kv_map doc) k =
     last_value k (flat_map docx_row_entries (concat (doc_tables doc)))) /\
  (forall doc, dict_get (docx_kv_map doc) "" = None).
Proof.
  split; [|split; [|split; [|split]]].
  - intros pairs x; induction pairs as [|[a b] pairs [IH1 IH2]]; simpl.
    + split; reflexivity.
    + rewrite IH1, IH2; split; reflexivity.
  - intros pages k; rewrite pdf_kv_map_rows, pdf_rows_last_value; reflexivity.
  - intros pages; rewrite pdf_kv_map_rows, pdf_rows_last_value; simpl.
    apply last_value_from_absent; intros e He.
    apply in_flat_map in He as [row [_ He]].
    intros Heq; exact (pdf_row_entries_label row e He Heq).
  - intros doc k; rewrite docx_kv_map_rows, docx_rows_last_value; reflexivity.
  - intros doc; rewrite docx_kv_map_rows, docx_rows_last_value; simpl.
    apply last_value_from_absent; intros e He.
    apply in_flat_map in He as [row [_ He]].
    intros Heq; exact (docx_row_entries_label row e He Heq).
Qed.

(** C2 (counterexample): the parsers have no floating-label pre-pass.
    On a PDF whose text puts the label ["Description"] on a line of its
    own, the parser extracts the following paragraph as Description,
    whereas span extraction on the blob with label-only lines deleted (as
    the claim describes) finds no Description span at all. *)
Lemma label_line_prepass_counterexample :
  let blob := "Description" ++ nl ++ "Details here" ++ nl ++ "Issue Impact"
              ++ nl ++ "Impact text" ++ nl ++ "Issue Root Cause" ++ nl
              ++ "Cause text" ++ nl ++ "Overall Issue Rating" in
  let pages := [{| page_tables := []; page_text := Some blob |}] in
  fget (parse_issue_briefing_pdf_from_file pages) "Description" = "Details here" /\
  pdf_desc_span (spec_strip_label_lines pdf_label_phrases blob) = None /\
  fget (parse_issue_briefing_pdf_from_file pages) "Description" <>
  match pdf_desc_span (spec_strip_label_lines pdf_label_phrases blob) with
  | Some g => normalize_ws g
  | None => ""
  end.
Proof. vm_compute; split; [reflexivity|split; [reflexivity|discriminate]]. Qed.

(** C2 (amended): the Field Parser has no floating-label pre-pass.
    (1) PDF: Description, Issue Impact and Issue Root Cause are each the
    whitespace-normalised group of their regex searched on the combined
    text exactly as joined from the non-empty page texts, or [""] without
    a match; (2) DOCX: likewise on the paragraphs joined by newlines, a
    newline, and all cell texts joined by newlines (Issue Impact with its
    ["Section C:"] fallback); no line is deleted, whether it holds a label
    alone or a label inside a longer line.  (3) PDF and (4) DOCX: when the
    first occurrence of a field's label is followed by a whitespace
    character (the newline ending a label-only line, or a space inside a
    longer line), then a line [d] (not empty, not starting with whitespace,
    without the closing marker) and then a line starting with the closing
    marker, the field is [d], whitespace-normalised: the label, isolated
    or embedded, opens its span. *)
Theorem isolated_label_line_anchors_span :
  (forall pages,
     Forall (fun '(k, opener, closer) =>
               fget (parse_issue_briefing_pdf_from_file pages) k =
               match search_span opener closer 1
                       (py_join nl (pdf_paragraph_parts pages)) with
               | Some g => normalize_ws g
               | None => ""
               end) pdf_span_fields) /\
  (forall doc,
     let c := py_join nl (doc_paragraphs doc) ++ nl ++
              py_join nl (concat (concat (doc_tables doc))) in
     let D := parse_icp_docx_from_file doc in
     fget D "Description" =
       match search_span "Issue Description:" "Issue Root Cause:" 0 c with
       | Some g => normalize_ws g | None => "" end /\
     fget D "Issue Root Cause" =
       match search_span "Issue Root Cause:" "Issue Impact:" 0 c with
       | Some g => normalize_ws g | None => "" end /\
     fget D "Issue Impact" =
       match search_span "Issue Impact:" "Background Context:" 0 c with
       | Some g => normalize_ws g
       | None =>
           match search_span "Issue Impact:" "Section C:" 0 c with
           | Some g => normalize_ws g | None => "" end
       end) /\
  (forall k opener closer, In (k, opener, closer) pdf_span_fields ->
   forall pages pre sep d rest,
     pdf_combined pages = pre ++ opener ++ String sep (d ++ nl ++ closer ++ rest) ->
     no_start_in opener pre (opener ++ String sep (d ++ nl ++ closer ++ rest))
       = true ->
     is_space sep = true -> d <> "" -> lead_ws d = 0 -> contains closer d = false ->
     fget (parse_issue_briefing_pdf_from_file pages) k = normalize_ws d) /\
  (forall k opener closer, In (k, opener, closer) docx_span_fields ->
   forall doc pre sep d rest,
     docx_combined doc = pre ++ opener ++ String sep (d ++ nl ++ closer ++ rest) ->
     no_start_in opener pre (opener ++ String sep (d ++ nl ++ closer ++ rest))
       = true ->
     is_space sep = true -> d <> "" -> lead_ws d = 0 -> contains closer d = false ->
     fget (parse_icp_docx_from_file doc) k = normalize_ws d).
Proof.
  split; [|split; [|split]].
  - intros pages.
    destruct (pdf_parse_spans pages) as [H1 [H2 H3]].
    unfold pdf_desc_span, pdf_impact_span, pdf_root_span, pdf_combined in *.
    repeat constructor; assumption.
  - intros doc; cbv zeta.
    destruct (docx_parse_spans doc) as [H1 [H2 H3]].
    unfold docx_desc_span, docx_impact_span, docx_root_span, docx_combined in *.
    cbv zeta in *.
    split; [exact H1|split; [exact H3|]].
    rewrite H2.
    destruct (search_span "Issue Impact:" "Background Context:" 0 _); reflexivity.
  - intros k opener closer Hin pages pre sep d rest Hc Hpre Hsep Hd Hws Hcon.
    destruct (pdf_parse_spans pages) as [H1 [H2 H3]].
    cbv zeta in H1, H2, H3.
    unfold pdf_desc_span, pdf_impact_span, pdf_root_span in *.
    rewrite Hc in H1, H2, H3.
    destruct Hin as [E|[E|[E|[]]]]; injection E as <- <- <-.
    + rewrite H1, (search_span_first_label _ _ "I"%char "ssue Impact" 1
                     pre sep d rest) by (reflexivity || lia || assumption).
      apply normalize_ws_trailing_nl.
    + rewrite H2, (search_span_first_label _ _ "I"%char "ssue Root Cause" 1
                     pre sep d rest) by (reflexivity || lia || assumption).
      apply normalize_ws_trailing_nl.
    + rewrite H3, (search_span_first_label _ _ "O"%char "verall Issue Rating" 1
                     pre sep d rest) by (reflexivity || lia || assumption).
      apply normalize_ws_trailing_nl.
  - intros k opener closer Hin doc pre sep d rest Hc Hpre Hsep Hd Hws Hcon.
    destruct (docx_parse_spans doc) as [H1 [H2 H3]].
    cbv zeta in H1, H2, H3.
    unfold docx_desc_span, docx_impact_span, docx_root_span in *.
    rewrite Hc in H1, H2, H3.
    destruct Hin as [E|[E|[E|[]]]]; injection E as <- <- <-.
    + rewrite H1, (search_span_first_label _ _ "I"%char "ssue Root Cause:" 0
                     pre sep d rest) by (reflexivity || lia || assumption).
      apply normalize_ws_trailing_nl.
    + rewrite H3, (search_span_first_label _ _ "I"%char "ssue Impact:" 0
                     pre sep d rest) by (reflexivity || lia || assumption).
      apply normalize_ws_trailing_nl.
    + rewrite H2, (search_span_first_label _ _ "B"%char "ackground Context:" 0
                     pre sep d rest) by (reflexivity || lia || assumption).
      apply normalize_ws_trailing_nl.
Qed.

(** The two shapes of the spec's example: a label-only line after a line
    of other text, and a label inside the longer line ["My Description of
    the event"]; and a DOCX label-only line. *)
Lemma isolated_label_line_anchors_span_witness :
  fget (parse_issue_briefing_pdf_from_file
          [{| page_tables := [];
              page_text := Some ("Summary" ++ nl ++ "Description" ++ nl ++
                                 "Details here" ++ nl ++ "Issue Impact" ++ nl ++
                                 "Impact text") |}])
       "Description" = "Details here" /\
  fget (parse_issue_briefing_pdf_from_file
          [{| page_tables := [];
              page_text := Some ("My Description of the event" ++ nl ++
                                 "Issue Impact none") |}])
       "Description" = "of the event" /\
  fget (parse_icp_docx_from_file
          {| doc_paragraphs := ["Issue Description:"; "Details here";
                                "Issue Root Cause: unknown"];
             doc_tables := [] |})
       "Description" = "Details here".
Proof.
  destruct isolated_label_line_anchors_span as [_ [_ [Hpdf Hdocx]]].
  split; [|split].
  - apply (Hpdf "Description" "Description" "Issue Impact" (or_introl eq_refl)
             _ ("Summary" ++ nl) nl_char "Details here" (nl ++ "Impact text"));
      [reflexivity|reflexivity|reflexivity|discriminate|reflexivity|reflexivity].
  - apply (Hpdf "Description" "Description" "Issue Impact" (or_introl eq_refl)
             _ "My " " "%char "of the event" " none");
      [reflexivity|reflexivity|reflexivity|discriminate|reflexivity|reflexivity].
  - apply (Hdocx "Description" "Issue Description:" "Issue Root Cause:"
             (or_introl eq_refl) _ "" nl_char "Details here" (" unknown" ++ nl));
      [reflexivity|reflexivity|reflexivity|discriminate|reflexivity|reflexivity].
Defined.

(** C3 (counterexample): the IssueID is not taken from an identifier
    pattern found in the text.  For the PDF whose only text is the line
    ["Title Foo Bar Issue ID ISSUE-123"] (no table), the blob contains
    ["ISSUE-123"], yet the parsed Issue ID (and Title) is empty. *)
Lemma issue_id_pattern_scan_counterexample :
  let pages := [{| page_tables := [];
                   page_text := Some "Title Foo Bar Issue ID ISSUE-123" |}] in
  contains "ISSUE-123" (pdf_combined pages) = true /\
  fget (parse_issue_briefing_pdf_from_file pages) "Issue ID" = "" /\
  fget (parse_issue_briefing_pdf_from_file pages) "Issue ID" <> "ISSUE-123" /\
  fget (parse_issue_briefing_pdf_from_file pages) "Title" = "".
Proof.
  vm_compute; split; [reflexivity|split; [reflexivity|split; [discriminate|reflexivity]]].
Qed.

(** C3 (amended): the IssueID is determined only by key lookup in the
    table key-value map (PDF: key ["Issue ID"], then ["Issue\nID"], else
    [""]; DOCX: key ["Source System Issue Reference"], else [""]); the
    text blob is not scanned, so removing all page text (PDF) or all
    paragraphs (DOCX) leaves the IssueID unchanged. *)
Theorem issue_id_by_key_lookup_only :
  (forall pages,
     fget (parse_issue_briefing_pdf_from_file pages) "Issue ID" =
     dict_get_default (pdf_kv_map pages) "Issue ID"
       (dict_get_default (pdf_kv_map pages) issue_nl_id "") /\
     fget (parse_issue_briefing_pdf_from_file pages) "Issue ID" =
     fget (parse_issue_briefing_pdf_from_file
             (map (fun p => {| page_tables := page_tables p; page_text := None |})
                  pages)) "Issue ID") /\
  (forall doc,
     fget (parse_icp_docx_from_file doc) "Issue ID" =
     dict_get_default (docx_kv_map doc) "Source System Issue Reference" "" /\
     fget (parse_icp_docx_from_file doc) "Issue ID" =
     fget (parse_icp_docx_from_file
             {| doc_paragraphs := []; doc_tables := doc_tables doc |})
          "Issue ID").
Proof.
  split.
  - intros pages; split; [apply pdf_parse_issue_id|].
    rewrite !pdf_parse_issue_id.
    assert (Hkv : pdf_kv_map (map (fun p => {| page_tables := page_tables p;
                                                page_text := None |}) pages)
                  = pdf_kv_map pages).
    { unfold pdf_kv_map; rewrite fold_left_map_fun; reflexivity. }
    rewrite Hkv; reflexivity.
  - intros doc; split; [apply docx_parse_issue_id|].
    rewrite !docx_parse_issue_id; reflexivity.
Qed.

End ParserClaims.

(* ================================================================== *)
(** * Facts about the similarity scorer (exact real arithmetic) *)
Module SimFacts.
Import PyStr PyDict Parsers Similarity.
Open Scope R_scope.

Lemma sumR_perm l l' : Permutation l l' -> sumR l = sumR l'.
Proof.
  induction 1; simpl; [reflexivity| rewrite IHPermutation; reflexivity
                      | ring | congruence].
Qed.

Lemma sumR_map_perm (f g : string -> R) V V' :
  Permutation V V' -> (forall t, f t = g t) ->
  sumR (map f V) = sumR (map g V').
Proof.
  intros Hp Hfg.
  rewrite (map_ext f g Hfg).
  apply sumR_perm, Permutation_map, Hp.
Qed.

Lemma sumR_map_scale (c : R) (h : string -> R) V :
  sumR (map (fun t => c * h t) V) = c * sumR (map h V).
Proof. induction V as [|t V IH]; simpl; [ring|rewrite IH; ring]. Qed.

Lemma sumR_map_nonneg (h : string -> R) V :
  (forall t, 0 <= h t) -> 0 <= sumR (map h V).
Proof.
  intros H; induction V as [|t V IH]; simpl; [lra|].
  specialize (H t); lra.
Qed.

Lemma sumR_map_pos (h : string -> R) V t0 :
  (forall t, 0 <= h t) -> In t0 V -> 0 < h t0 -> 0 < sumR (map h V).
Proof.
  intros H; induction V as [|t V IH]; simpl; [tauto|].
  intros [->|Hin] Hpos.
  - pose proof (sumR_map_nonneg h V H); lra.
  - specialize (IH Hin Hpos); specialize (H t); lra.
Qed.

Lemma normalize_map V f :
  normalize (map f V) = map (normalize_fun V f) V.
Proof.
  unfold normalize, normalize_fun; rewrite map_map; cbv zeta.
  destruct (Req_dec_T _ 0); [reflexivity|rewrite map_map; reflexivity].
Qed.

Lemma dot_map (V : list string) (f g : string -> R) :
  dot (map f V) (map g V) = sumR (map (fun t => f t * g t) V).
Proof.
  unfold dot; induction V as [|t V IH]; simpl; [reflexivity|rewrite IH; reflexivity].
Qed.

Lemma normalize_fun_perm V V' f g :
  Permutation V V' -> (forall t, f t = g t) ->
  forall t, normalize_fun V f t = normalize_fun V' g t.
Proof.
  intros Hp Hfg t; unfold normalize_fun.
  rewrite (sumR_map_perm (fun t => f t * f t) (fun t => g t * g t) V V' Hp)
    by (intros; rewrite Hfg; reflexivity).
  rewrite Hfg; reflexivity.
Qed.

(** Sum of squares of a row, read pointwise. *)
Lemma normalize_fun_sumsq V f :
  sumR (map (fun t => f t * f t) V) <> 0 ->
  sumR (map (fun t => normalize_fun V f t * normalize_fun V f t) V) = 1.
Proof.
  intros HS; unfold normalize_fun; cbv zeta.
  set (S := sumR (map (fun t => f t * f t) V)) in *.
  assert (HS0 : 0 <= S) by (apply sumR_map_nonneg; intros; apply Rle_0_sqr).
  assert (Hn : sqrt S <> 0).
  { intros H; apply HS; apply sqrt_eq_0; assumption. }
  destruct (Req_dec_T (sqrt S) 0) as [H|_]; [contradiction|].
  rewrite (map_ext (fun t => f t / sqrt S * (f t / sqrt S))
                   (fun t => / (sqrt S * sqrt S) * (f t * f t)))
    by (intros; field; exact Hn).
  rewrite sumR_map_scale; fold S.
  rewrite sqrt_sqrt by exact HS0.
  field; exact HS.
Qed.


Lemma normalize_fun_nonneg V f :
  (forall t, 0 <= f t) -> forall t, 0 <= normalize_fun V f t.
Proof.
  intros Hf t; unfold normalize_fun; cbv zeta.
  destruct (Req_dec_T _ 0) as [_|Hn]; [apply Hf|].
  unfold Rdiv; apply Rmult_le_pos; [apply Hf|].
  left; apply Rinv_0_lt_compat.
  destruct (sqrt_pos (sumR (map (fun t => f t * f t) V))) as [H|H];
    [exact H|symmetry in H; contradiction].
Qed.

Lemma doc_freq_sym a b t : doc_freq a b t = doc_freq b a t.
Proof. unfold doc_freq; lia. Qed.

Lemma idf_sym a b t : idf a b t = idf b a t.
Proof. unfold idf; rewrite doc_freq_sym; reflexivity. Qed.

Lemma idf_ge_1 a b t : 1 <= idf a b t.
Proof.
  unfold idf, n_docs.
  assert (Hdf : (doc_freq a b t <= 2)%nat)
    by (unfold doc_freq; destruct (in_dec _ _ _), (in_dec _ _ _); lia).
  assert (Hln : 0 <= ln (INR (1 + 2) / INR (1 + doc_freq a b t))).
  { destruct (doc_freq a b t) as [|[|[|k]]]; [| | |lia]; simpl INR.
    - left; rewrite <- ln_1; apply ln_increasing; lra.
    - left; rewrite <- ln_1; apply ln_increasing; lra.
    - replace ((1 + 1 + 1) / (1 + 1 + 1)) with 1 by field.
      rewrite ln_1; lra. }
  lra.
Qed.

Lemma tf_nonneg doc t : 0 <= tf doc t.
Proof. unfold tf; apply pos_INR. Qed.

Lemma weight_nonneg a b doc t : 0 <= tf doc t * idf a b t.
Proof.
  apply Rmult_le_pos; [apply tf_nonneg|].
  pose proof (idf_ge_1 a b t); lra.
Qed.

Lemma vocabulary_perm a b : Permutation (vocabulary a b) (vocabulary b a).
Proof.
  unfold vocabulary; apply NoDup_Permutation; try apply NoDup_nodup.
  intros t; rewrite !nodup_In, !in_app_iff; tauto.
Qed.

(** The score, read pointwise over the vocabulary. *)
Lemma cosine_rows V a b :
  cosine_similarity (normalize (tfidf_row V a b a))
                    (normalize (tfidf_row V a b b)) =
  sumR (map (fun t =>
         normalize_fun V (normalize_fun V (fun t => tf a t * idf a b t)) t *
         normalize_fun V (normalize_fun V (fun t => tf b t * idf a b t)) t) V).
Proof.
  unfold cosine_similarity, tfidf_row.
  rewrite !normalize_map, dot_map; reflexivity.
Qed.

Lemma text_similarity_value a b :
  truthy a = true -> truthy b = true -> vocabulary a b <> [] ->
  text_similarity a b =
  Some (sumR (map (fun t =>
         normalize_fun (vocabulary a b)
           (normalize_fun (vocabulary a b) (fun t => tf a t * idf a b t)) t *
         normalize_fun (vocabulary a b)
           (normalize_fun (vocabulary a b) (fun t => tf b t * idf a b t)) t)
         (vocabulary a b))).
Proof.
  intros Ha Hb HV; unfold text_similarity; rewrite Ha, Hb; simpl.
  rewrite <- cosine_rows.
  destruct (vocabulary a b); [contradiction|reflexivity].
Qed.

Lemma text_similarity_empty_vocabulary a b :
  truthy a = true -> truthy b = true -> vocabulary a b = [] ->
  text_similarity a b = None.
Proof.
  intros Ha Hb HV; unfold text_similarity; rewrite Ha, Hb; simpl.
  rewrite HV; reflexivity.
Qed.



(** Self-similarity of a string with at least one token is 1 (exact
    arithmetic). *)
Lemma text_similarity_self a :
  tokenize a <> [] -> text_similarity a a = Some 1.
Proof.
  intros Htok.
  destruct (tokenize a) as [|t0 ts] eqn:Ht; [contradiction|clear Htok].
  assert (Ha : truthy a = true) by (destruct a; [discriminate|reflexivity]).
  assert (Hin : In t0 (vocabulary a a))
    by (unfold vocabulary; apply nodup_In; rewrite Ht; left; reflexivity).
  assert (HV : vocabulary a a <> []) by (intros HV; rewrite HV in Hin; exact Hin).
  rewrite text_similarity_value by assumption; f_equal.
  set (V := vocabulary a a) in *.
  set (w := fun t => tf a t * idf a a t).
  assert (Hw : sumR (map (fun t => w t * w t) V) <> 0).
  { apply Rgt_not_eq, Rlt_gt.
    apply (sumR_map_pos _ V t0); [intros; apply Rle_0_sqr|exact Hin|].
    assert (Htf : 0 < tf a t0).
    { unfold tf; apply lt_0_INR, count_occ_In; rewrite Ht; left; reflexivity. }
    pose proof (idf_ge_1 a a t0).
    unfold w; apply Rmult_lt_0_compat; apply Rmult_lt_0_compat; lra. }
  apply normalize_fun_sumsq.
  rewrite normalize_fun_sumsq by exact Hw; lra.
Qed.

(** The Python dict returned by [compute_similarity]. *)
Lemma compute_similarity_shape f1 f2 sc :
  compute_similarity f1 f2 = Some sc ->
  exists t d rc im,
    sc = [("Issue ID"%string, issue_id_score f1 f2); ("Title"%string, t);
          ("Description"%string, d); ("Issue Root Cause"%string, rc);
          ("Issue Impact"%string, im);
          ("Overall"%string, (issue_id_score f1 f2 + t + d + rc + im) / 5)].
Proof.
  unfold compute_similarity.
  destruct (text_similarity (fget f1 "Title") (fget f2 "Title")) as [t|];
    [|discriminate].
  destruct (text_similarity (fget f1 "Description") (fget f2 "Description"))
    as [d|]; [|discriminate].
  destruct (text_similarity (fget f1 "Issue Root Cause")
                            (fget f2 "Issue Root Cause")) as [rc|];
    [|discriminate].
  destruct (text_similarity (fget f1 "Issue Impact") (fget f2 "Issue Impact"))
    as [im|]; [|discriminate].
  intros H; inversion H; subst; clear H.
  exists t, d, rc, im; cbn.
  replace ((0 + issue_id_score f1 f2 + t + d + rc + im) / (1 + 1 + 1 + 1 + 1))
    with ((issue_id_score f1 f2 + t + d + rc + im) / 5) by field.
  reflexivity.
Qed.

End SimFacts.

(* ================================================================== *)
(** * Claims about the similarity scorer *)
Module SimClaims.
Import PyStr PyDict Parsers Similarity SimFacts.
Open Scope R_scope.

(** C1 (code bug): [text_similarity] does raise on some non-empty
    inputs.  Its guard returns [0.0] only for empty strings; when neither
    string has a token (a run of two or more word characters), as for
    ["N/A"] and ["-"] or for two whitespace-only strings, [fit] raises
    [ValueError] (empty vocabulary). *)
Theorem text_similarity_raises_without_tokens :
  "N/A"%string <> ""%string /\ "-"%string <> ""%string /\
  text_similarity "N/A" "-" = None /\
  text_similarity " " " " = None.
Proof.
  split; [discriminate|split; [discriminate|split; vm_compute; reflexivity]].
Qed.

(** C5 (code bug): for the non-empty string ["N/A"], which has no token,
    [text_similarity("N/A", "N/A")] raises instead of returning [1.0]. *)
Theorem text_similarity_self_raises_without_tokens :
  "N/A"%string <> ""%string /\ text_similarity "N/A" "N/A" = None.
Proof. split; [discriminate|vm_compute; reflexivity]. Qed.

(** C9: [text_similarity] is symmetric: [text_similarity(a, b)] and
    [text_similarity(b, a)] have the same outcome for all strings (the
    same score, or both raise); in particular the scores are equal for
    all non-empty [a] and [b] for which a score is returned. *)
Theorem text_similarity_symmetric (a b : string) :
  text_similarity a b = text_similarity b a.
Proof.
  destruct (truthy a) eqn:Ha, (truthy b) eqn:Hb;
    try (unfold text_similarity; rewrite Ha, Hb; reflexivity).
  pose proof (vocabulary_perm a b) as Hp.
  destruct (list_eq_dec string_dec (vocabulary a b) []) as [HV|HV].
  - rewrite !text_similarity_empty_vocabulary; try assumption; [reflexivity|].
    rewrite HV in Hp; apply Permutation_nil, Hp.
  - assert (HV' : vocabulary b a <> []).
    { intros H; rewrite H in Hp; apply HV, Permutation_nil, Permutation_sym, Hp. }
    rewrite !text_similarity_value by assumption; f_equal.
    apply sumR_map_perm; [exact Hp|]; intros t.
    assert (Hw : forall x, forall t, tf x t * idf a b t = tf x t * idf b a t)
      by (intros; rewrite idf_sym; reflexivity).
    rewrite (normalize_fun_perm _ _ _ _ Hp
               (normalize_fun_perm _ _ _ _ Hp (Hw a)) t).
    rewrite (normalize_fun_perm _ _ _ _ Hp
               (normalize_fun_perm _ _ _ _ Hp (Hw b)) t).
    apply Rmult_comm.
Qed.

(** C6: whenever [compute_similarity] returns, its Overall score is the
    unweighted mean of exactly the five field scores (Issue ID, Title,
    Description, Issue Root Cause, Issue Impact): [len(scores)] is 5 at
    the point of division, whatever the fields contain. *)
Theorem overall_is_mean_of_five (f1 f2 : dict string) (sc : dict R)
  (H : compute_similarity f1 f2 = Some sc) :
  exists i t d rc im,
    sc = [("Issue ID"%string, i); ("Title"%string, t);
          ("Description"%string, d); ("Issue Root Cause"%string, rc);
          ("Issue Impact"%string, im);
          ("Overall"%string, (i + t + d + rc + im) / 5)].
Proof.
  destruct (compute_similarity_shape f1 f2 sc H) as [t [d [rc [im ->]]]].
  exists (issue_id_score f1 f2), t, d, rc, im; reflexivity.
Qed.

Lemma overall_is_mean_of_five_witness :
  exists sc, compute_similarity fields_init fields_init = Some sc /\
  exists i t d rc im,
    sc = [("Issue ID"%string, i); ("Title"%string, t);
          ("Description"%string, d); ("Issue Root Cause"%string, rc);
          ("Issue Impact"%string, im);
          ("Overall"%string, (i + t + d + rc + im) / 5)].
Proof.
  eexists; split; [reflexivity|].
  apply (overall_is_mean_of_five fields_init fields_init); reflexivity.
Defined.

(** C7: the Issue ID score is [1.0] when the two records' Issue ID
    entries are exactly equal and [0.0] otherwise, so it is always 0 or
    1; two empty Issue IDs score [1.0]. *)
Theorem issue_id_score_exact (f1 f2 : dict string) (sc : dict R)
  (H : compute_similarity f1 f2 = Some sc) :
  exists s, dict_get sc "Issue ID" = Some s /\ (s = 1 \/ s = 0) /\
    (s = 1 <-> dict_get f1 "Issue ID" = dict_get f2 "Issue ID") /\
    (dict_get f1 "Issue ID" = Some ""%string ->
     dict_get f2 "Issue ID" = Some ""%string -> s = 1).
Proof.
  destruct (compute_similarity_shape f1 f2 sc H) as [t [d [rc [im ->]]]].
  exists (issue_id_score f1 f2); split; [reflexivity|].
  unfold issue_id_score.
  destruct (dict_get f1 "Issue ID") as [x|], (dict_get f2 "Issue ID") as [y|].
  - destruct (String.eqb_spec x y) as [->|Hne].
    + split; [left; reflexivity|split; [split; reflexivity|reflexivity]].
    + split; [right; reflexivity|split; [|intros Hx Hy; congruence]].
      split; [intros H1; exfalso; lra|intros Heq; inversion Heq; contradiction].
  - split; [right; reflexivity|split; [|discriminate]].
    split; [intros H1; exfalso; lra|discriminate].
  - split; [right; reflexivity|split; [|discriminate]].
    split; [intros H1; exfalso; lra|discriminate].
  - split; [left; reflexivity|split; [split; reflexivity|discriminate]].
Qed.

Lemma issue_id_score_exact_witness :
  exists sc, compute_similarity fields_init fields_init = Some sc /\
  exists s, dict_get sc "Issue ID" = Some s /\ (s = 1 \/ s = 0) /\
    (s = 1 <-> dict_get fields_init "Issue ID" = dict_get fields_init "Issue ID") /\
    (dict_get fields_init "Issue ID" = Some ""%string ->
     dict_get fields_init "Issue ID" = Some ""%string -> s = 1).
Proof.
  eexists; split; [reflexivity|].
  apply (issue_id_score_exact fields_init fields_init); reflexivity.
Defined.

(** C8: [to_match_label(score, t)] is ["Match"] exactly when
    [score >= t] (and ["Mismatch"] otherwise); in the result rows of
    [main] the Issue ID score is classified against [1.0] whatever the
    caller's threshold, which is used for every other field and for
    Overall. *)
Theorem classification_thresholds :
  (forall s t, to_match_label s t = "Match"%string <-> t <= s) /\
  (forall s t, to_match_label s t = "Mismatch"%string <-> s < t) /\
  (forall i t d rc im o th,
     sim_rows [("Issue ID"%string, i); ("Title"%string, t);
               ("Description"%string, d); ("Issue Root Cause"%string, rc);
               ("Issue Impact"%string, im); ("Overall"%string, o)] th =
     Some [("Issue ID"%string, to_match_label i 1);
           ("Title"%string, to_match_label t th);
           ("Description"%string, to_match_label d th);
           ("Issue Root Cause"%string, to_match_label rc th);
           ("Issue Impact"%string, to_match_label im th);
           ("Overall"%string, to_match_label o th)]).
Proof.
  split; [|split].
  - intros s t; unfold to_match_label.
    destruct (Rle_dec t s) as [Hle|Hnle]; split; intros H;
      [exact Hle|reflexivity|discriminate|contradiction].
  - intros s t; unfold to_match_label.
    destruct (Rle_dec t s) as [Hle|Hnle]; split; intros H.
    + discriminate.
    + exfalso; lra.
    + apply Rnot_le_lt; exact Hnle.
    + reflexivity.
  - intros; reflexivity.
Qed.

End SimClaims.

(* ================================================================== *)
(** * Further facts: whitespace normalisation, spans, parsed records *)
Module ExtraFacts.
Import PyStr Regex PyDict Parsers Walk ParserFacts App.
Open Scope string_scope.

(** *** [" ".join(s.split())] *)

Lemma flush_words cur rest :
  (forall c, In c cur -> is_space c = false) ->
  (forall w, In w rest -> w <> [] /\ forall c, In c w -> is_space c = false) ->
  forall w, In w (flush cur rest) -> w <> [] /\ forall c, In c w -> is_space c = false.
Proof.
  intros Hcur Hrest w; destruct cur as [|x cur]; unfold flush; [apply Hrest|].
  intros [<-|Hw]; [|apply Hrest, Hw].
  split.
  - intros Hnil; apply (f_equal (@length ascii)) in Hnil.
    rewrite length_rev in Hnil; simpl in Hnil; lia.
  - intros c Hc; apply Hcur; apply in_rev in Hc; exact Hc.
Qed.

Lemma split_ws_aux_words l cur :
  (forall c, In c cur -> is_space c = false) ->
  forall w, In w (split_ws_aux l cur) ->
  w <> [] /\ forall c, In c w -> is_space c = false.
Proof.
  revert cur; induction l as [|x l IH]; intros cur Hcur; simpl.
  - apply flush_words; [exact Hcur|simpl; tauto].
  - destruct (is_space x) eqn:Hx.
    + apply flush_words; [exact Hcur|apply IH; simpl; tauto].
    + apply IH; intros c [<-|Hc]; [exact Hx|apply Hcur, Hc].
Qed.

Lemma split_ws_aux_word w l cur :
  (forall c, In c w -> is_space c = false) ->
  split_ws_aux (app w l) cur = split_ws_aux l (app (rev w) cur).
Proof.
  revert cur; induction w as [|x w IH]; intros cur Hw; simpl; [reflexivity|].
  rewrite (Hw x (or_introl eq_refl)).
  rewrite IH by (intros c Hc; apply Hw; right; exact Hc).
  rewrite <- app_assoc; reflexivity.
Qed.

Lemma split_ws_aux_space c l cur :
  is_space c = true -> split_ws_aux (c :: l) cur = flush cur (split_ws_aux l []).
Proof. intros Hc; simpl; rewrite Hc; reflexivity. Qed.

Lemma flush_rev w rest : w <> [] -> flush (rev w) rest = w :: rest.
Proof.
  intros Hw; destruct (rev w) as [|x r] eqn:E.
  - apply (f_equal (@rev ascii)) in E; rewrite rev_involutive in E.
    contradiction.
  - unfold flush; rewrite <- E, rev_involutive; reflexivity.
Qed.

Lemma split_join ws :
  (forall w, In w ws -> w <> [] /\ forall c, In c w -> is_space c = false) ->
  split_ws_aux (list_ascii_of_string
                  (py_join " " (map string_of_list_ascii ws))) [] = ws.
Proof.
  induction ws as [|w ws IH]; intros Hws; [reflexivity|].
  destruct (Hws w (or_introl eq_refl)) as [Hne Hsp].
  destruct ws as [|w' ws'].
  - simpl py_join; rewrite list_ascii_of_string_of_list_ascii.
    rewrite <- (app_nil_r w) at 1.
    rewrite split_ws_aux_word by exact Hsp; simpl.
    rewrite app_nil_r, flush_rev by exact Hne; reflexivity.
  - change (py_join " " (map string_of_list_ascii (w :: w' :: ws')))
      with (string_of_list_ascii w ++ " " ++
            py_join " " (map string_of_list_ascii (w' :: ws'))).
    rewrite list_ascii_of_string_app, list_ascii_of_string_of_list_ascii.
    rewrite split_ws_aux_word by exact Hsp.
    change (list_ascii_of_string (" " ++ ?J))
      with (" "%char :: list_ascii_of_string J).
    rewrite split_ws_aux_space by reflexivity.
    rewrite app_nil_r, flush_rev by exact Hne.
    rewrite IH; [reflexivity|].
    intros x Hx; apply Hws; right; exact Hx.
Qed.

Lemma py_split_words s w :
  In w (split_ws_aux (list_ascii_of_string s) []) ->
  w <> [] /\ forall c, In c w -> is_space c = false.
Proof. apply split_ws_aux_words; simpl; tauto. Qed.

Lemma normalize_ws_idem s : normalize_ws (normalize_ws s) = normalize_ws s.
Proof.
  unfold normalize_ws at 1 2; unfold py_split at 1.
  fold (normalize_ws s); unfold normalize_ws at 1; unfold py_split.
  rewrite split_join; [reflexivity|].
  intros w Hw; apply (py_split_words s w Hw).
Qed.

Lemma py_join_space_chars ws c :
  (forall w, In w ws -> forall c, In c w -> is_space c = false) ->
  In c (list_ascii_of_string (py_join " " (map string_of_list_ascii ws))) ->
  c = " "%char \/ is_space c = false.
Proof.
  induction ws as [|w ws IH]; intros Hws Hc; [simpl in Hc; contradiction|].
  destruct ws as [|w' ws'].
  - change (py_join " " (map string_of_list_ascii [w]))
      with (string_of_list_ascii w) in Hc.
    rewrite list_ascii_of_string_of_list_ascii in Hc.
    right; exact (Hws w (or_introl eq_refl) c Hc).
  - change (py_join " " (map string_of_list_ascii (w :: w' :: ws')))
      with (string_of_list_ascii w ++ " " ++
            py_join " " (map string_of_list_ascii (w' :: ws'))) in Hc.
    rewrite list_ascii_of_string_app, list_ascii_of_string_of_list_ascii in Hc.
    apply in_app_or in Hc as [Hc|[<-|Hc]].
    + right; exact (Hws w (or_introl eq_refl) c Hc).
    + left; reflexivity.
    + apply IH; [intros x Hx; apply Hws; right; exact Hx|exact Hc].
Qed.

Lemma normalize_ws_spaces s c :
  In c (list_ascii_of_string (normalize_ws s)) -> is_space c = true ->
  c = " "%char.
Proof.
  intros Hc Hsp; unfold normalize_ws, py_split in Hc.
  destruct (py_join_space_chars _ c
              (fun w Hw => proj2 (py_split_words s w Hw)) Hc) as [H|H];
    [exact H|congruence].
Qed.

Lemma normalize_ws_no_nl s : no_nl (normalize_ws s).
Proof.
  intros Hc; apply normalize_ws_spaces in Hc; [discriminate|reflexivity].
Qed.


(** *** A span is found only where both of its markers occur *)

Lemma starts_with_contains p s : starts_with p s = true -> contains p s = true.
Proof. destruct s; simpl; intros ->; reflexivity. Qed.

Lemma contains_cons p c s : contains p s = true -> contains p (String c s) = true.
Proof. intros H; simpl; rewrite H; apply orb_true_r. Qed.

Lemma contains_str_drop p n s :
  contains p (str_drop n s) = true -> contains p s = true.
Proof.
  revert s; induction n as [|n IH]; intros s H; [exact H|].
  destruct s as [|c s]; [exact H|].
  apply contains_cons, IH, H.
Qed.

Lemma lazy_take_contains closer s g :
  lazy_take closer s = Some g -> contains closer s = true.
Proof.
  revert g; induction s as [|c s IH]; intros g H; simpl in H; [discriminate|].
  destruct (starts_with closer s) eqn:E.
  - apply contains_cons, starts_with_contains, E.
  - destruct (lazy_take closer s) as [g'|] eqn:E2; [|discriminate].
    apply contains_cons, (IH g' eq_refl).
Qed.

Lemma ws_backtrack_unfold closer s1 lo k :
  ws_backtrack closer s1 lo k =
  match lazy_take closer (str_drop k s1) with
  | Some g => Some g
  | None =>
      match k with
      | 0 => None
      | S k' => if Nat.leb lo k' then ws_backtrack closer s1 lo k' else None
      end
  end.
Proof. destruct k; reflexivity. Qed.

Lemma ws_backtrack_contains closer s1 lo k g :
  ws_backtrack closer s1 lo k = Some g -> contains closer s1 = true.
Proof.
  revert g; induction k as [|k IH]; intros g H; rewrite ws_backtrack_unfold in H;
    destruct (lazy_take closer (str_drop _ s1)) as [g'|] eqn:E.
  - apply (contains_str_drop _ 0), (lazy_take_contains _ _ g'), E.
  - discriminate.
  - apply (contains_str_drop _ (S k)), (lazy_take_contains _ _ g'), E.
  - destruct (Nat.leb lo k); [exact (IH g H)|discriminate].
Qed.

Lemma match_at_contains opener closer lo s g :
  match_at opener closer lo s = Some g ->
  contains opener s = true /\ contains closer s = true.
Proof.
  unfold match_at; destruct (starts_with opener s) eqn:E; [|discriminate].
  destruct (Nat.leb lo _); [|discriminate]; intros H; split.
  - apply starts_with_contains, E.
  - apply (contains_str_drop _ (String.length opener)).
    exact (ws_backtrack_contains _ _ _ _ _ H).
Qed.

Lemma search_span_contains opener closer lo s g :
  search_span opener closer lo s = Some g ->
  contains opener s = true /\ contains closer s = true.
Proof.
  revert g; induction s as [|c s IH]; intros g H; rewrite search_span_unfold in H;
    destruct (match_at opener closer lo _) as [g'|] eqn:E.
  - exact (match_at_contains _ _ _ _ _ E).
  - discriminate.
  - exact (match_at_contains _ _ _ _ _ E).
  - destruct (IH g H) as [H1 H2]; split; apply contains_cons; assumption.
Qed.

(** *** The parsed records *)

Lemma map_fst_dict_set {V} (d : dict V) k v :
  map fst (dict_set d k v) =
  if existsb (String.eqb k) (map fst d) then map fst d else app (map fst d) [k].
Proof.
  induction d as [|[k0 v0] d IH]; simpl; [reflexivity|].
  destruct (String.eqb k k0); simpl; [reflexivity|].
  rewrite IH; destruct (existsb (String.eqb k) (map fst d)); reflexivity.
Qed.

Lemma map_fst_set_if_match f key m :
  map fst (set_if_match f key m) =
  match m with
  | Some _ => if existsb (String.eqb key) (map fst f) then map fst f
              else app (map fst f) [key]
  | None => map fst f
  end.
Proof. destruct m; [apply map_fst_dict_set|reflexivity]. Qed.

Lemma pdf_parse_keys pages :
  map fst (parse_issue_briefing_pdf_from_file pages) =
  ["Title"; "Issue ID"; "Description"; "Issue Impact"; "Issue Root Cause"].
Proof.
  unfold parse_issue_briefing_pdf_from_file; cbv zeta.
  rewrite !map_fst_set_if_match, !map_fst_dict_set.
  destruct (pdf_desc_span _), (pdf_impact_span _), (pdf_root_span _);
    reflexivity.
Qed.

Lemma docx_parse_keys doc :
  map fst (parse_icp_docx_from_file doc) =
  ["Title"; "Issue ID"; "Description"; "Issue Impact"; "Issue Root Cause"].
Proof.
  unfold parse_icp_docx_from_file; cbv zeta.
  rewrite !map_fst_set_if_match, !map_fst_dict_set.
  destruct (docx_desc_span _), (docx_root_span _), (docx_impact_span _);
    reflexivity.
Qed.

Lemma dict_get_keys {V} (d : dict V) k v :
  dict_get d k = Some v -> In k (map fst d).
Proof.
  induction d as [|[k0 v0] d IH]; simpl; [discriminate|].
  destruct (String.eqb_spec k k0) as [->|_]; [left; reflexivity|].
  intros H; right; exact (IH H).
Qed.

Lemma dict_get_present (d : dict string) k :
  In k (map fst d) -> dict_get d k = Some (fget d k).
Proof.
  unfold fget, dict_get_default.
  induction d as [|[k0 v0] d IH]; simpl; [tauto|].
  destruct (String.eqb_spec k k0) as [->|Hne]; [reflexivity|].
  intros [H|H]; [congruence|exact (IH H)].
Qed.

Lemma span_value_markers opener closer lo c :
  match search_span opener closer lo c with
  | Some g => normalize_ws g | None => "" end <> "" ->
  contains opener c = true /\ contains closer c = true.
Proof.
  destruct (search_span opener closer lo c) as [g|] eqn:E; [|tauto].
  intros _; exact (search_span_contains _ _ _ _ _ E).
Qed.

(** *** Newline-free values of the PDF record *)

Lemma dict_set_Forall {V} (P : V -> Prop) (d : dict V) k v :
  Forall (fun kv => P (snd kv)) d -> P v ->
  Forall (fun kv => P (snd kv)) (dict_set d k v).
Proof.
  intros Hd Hv; induction Hd as [|[k0 v0] d H0 Hd IH]; simpl.
  - constructor; [exact Hv|constructor].
  - destruct (String.eqb k k0); constructor; assumption.
Qed.

Lemma dict_get_Forall {V} (P : V -> Prop) (d : dict V) k v :
  Forall (fun kv => P (snd kv)) d -> dict_get d k = Some v -> P v.
Proof.
  intros Hd; induction Hd as [|[k0 v0] d H0 Hd IH]; simpl; [discriminate|].
  destruct (String.eqb k k0); [intros H; inversion H; subst; exact H0|exact IH].
Qed.

Lemma pdf_walk_cells_no_nl cells kv :
  Forall no_nl cells -> Forall (fun kv => no_nl (snd kv)) kv ->
  Forall (fun kv => no_nl (snd kv)) (pdf_walk_cells cells kv).
Proof.
  revert cells kv; fix IH 1; intros [|c0 [|c1 rest]] kv Hc Hkv; simpl;
    [exact Hkv|exact Hkv|].
  inversion Hc as [|? ? _ Hc']; inversion Hc' as [|? ? H1 Hrest]; subst.
  apply IH; [exact Hrest|].
  destruct (truthy _); [|exact Hkv].
  apply dict_set_Forall; [exact Hkv|apply py_strip_no_nl, H1].
Qed.

Lemma pdf_kv_map_values_no_nl pages :
  Forall (fun kv => no_nl (snd kv)) (pdf_kv_map pages).
Proof.
  rewrite pdf_kv_map_rows.
  assert (Hgen : forall rows (kv : dict string),
             Forall (fun kv => no_nl (snd kv)) kv ->
             Forall (fun kv => no_nl (snd kv))
               (fold_left (fun kv row => pdf_walk_cells (map pdf_clean_cell row) kv)
                          rows kv)).
  { induction rows as [|row rows IH]; intros kv Hkv; simpl; [exact Hkv|].
    apply IH, pdf_walk_cells_no_nl; [|exact Hkv].
    apply Forall_forall; intros x Hx.
    apply in_map_iff in Hx as [c [<- _]]; apply pdf_clean_cell_no_nl. }
  apply Hgen; constructor.
Qed.

Lemma set_if_match_no_nl f key m :
  Forall (fun kv => no_nl (snd kv)) f ->
  Forall (fun kv => no_nl (snd kv)) (set_if_match f key m).
Proof.
  intros Hf; destruct m; [apply dict_set_Forall; [exact Hf|]|exact Hf].
  apply normalize_ws_no_nl.
Qed.

Lemma no_nl_empty : no_nl "".
Proof. unfold no_nl; simpl; tauto. Qed.

Lemma dict_get_default_no_nl (kv : dict string) k dflt :
  Forall (fun kv => no_nl (snd kv)) kv -> no_nl dflt ->
  no_nl (dict_get_default kv k dflt).
Proof.
  intros Hkv Hd; unfold dict_get_default.
  destruct (dict_get kv k) eqn:E; [exact (dict_get_Forall _ _ _ _ Hkv E)|exact Hd].
Qed.

Lemma pdf_parse_no_nl pages :
  Forall (fun kv => no_nl (snd kv)) (parse_issue_briefing_pdf_from_file pages).
Proof.
  pose proof (pdf_kv_map_values_no_nl pages) as Hkv.
  unfold parse_issue_briefing_pdf_from_file; cbv zeta.
  apply set_if_match_no_nl, set_if_match_no_nl, set_if_match_no_nl.
  apply dict_set_Forall; [apply dict_set_Forall|].
  - repeat constructor; apply no_nl_empty.
  - apply dict_get_default_no_nl; [exact Hkv|apply no_nl_empty].
  - apply dict_get_default_no_nl; [exact Hkv|].
    apply dict_get_default_no_nl; [exact Hkv|apply no_nl_empty].
Qed.

(** *** The debug-view text and the parsers' text blobs *)

Lemma pdf_paragraph_parts_filter pages :
  pdf_paragraph_parts pages =
  map page_text_or_empty
      (filter (fun p => truthy (page_text_or_empty p)) pages).
Proof.
  unfold pdf_paragraph_parts.
  induction pages as [|[tb [s|]] pages IH]; [reflexivity| |].
  - cbn [flat_map filter page_text].
    change (page_text_or_empty {| page_tables := tb; page_text := Some s |})
      with s.
    destruct (truthy s); cbn [app map]; rewrite IH; reflexivity.
  - cbn [flat_map filter page_text].
    change (page_text_or_empty {| page_tables := tb; page_text := None |})
      with "".
    exact IH.
Qed.

Lemma py_join_app sep l1 l2 :
  l1 <> [] -> l2 <> [] ->
  py_join sep (app l1 l2) = py_join sep l1 ++ sep ++ py_join sep l2.
Proof.
  intros H1 H2; induction l1 as [|x l1 IH]; [contradiction|].
  destruct l1 as [|y l1'].
  - destruct l2 as [|z l2]; [contradiction|reflexivity].
  - change (py_join sep (app (x :: y :: l1') l2))
      with (x ++ sep ++ py_join sep (app (y :: l1') l2)).
    rewrite IH by discriminate.
    change (py_join sep (x :: y :: l1')) with (x ++ sep ++ py_join sep (y :: l1')).
    rewrite !str_app_assoc; reflexivity.
Qed.

Lemma join_single_cells (rows : list (list string)) :
  forallb (fun row => Nat.eqb (List.length row) 1) rows = true ->
  map (py_join " | ") rows = concat rows.
Proof.
  induction rows as [|row rows IH]; simpl; [reflexivity|].
  intros H; apply andb_true_iff in H as [Hr H].
  destruct row as [|x [|y r]]; try discriminate.
  simpl; rewrite IH by exact H; reflexivity.
Qed.

End ExtraFacts.

(* ================================================================== *)
(** * Further facts about the scorer and the Compare action *)
Module ExtraSimFacts.
Import PyStr PyDict Parsers Similarity SimFacts App ExtraFacts.
Open Scope R_scope.

Lemma truthy_true s : truthy s = true <-> s <> ""%string.
Proof. destruct s; simpl; split; congruence. Qed.

Lemma truthy_false s : truthy s = false <-> s = ""%string.
Proof. destruct s; simpl; split; congruence. Qed.

Lemma nodup_nil (l : list string) : nodup string_dec l = [] -> l = [].
Proof.
  destruct l as [|x l]; [reflexivity|intros H].
  assert (Hx : In x (nodup string_dec (x :: l))) by (apply nodup_In; left; reflexivity).
  rewrite H in Hx; contradiction.
Qed.

Lemma text_similarity_none_iff a b :
  text_similarity a b = None <->
  a <> ""%string /\ b <> ""%string /\ tokenize a = [] /\ tokenize b = [].
Proof.
  destruct (truthy a) eqn:Ha.
  2:{ unfold text_similarity; rewrite Ha; apply truthy_false in Ha.
      split; [discriminate|intros [H _]; contradiction]. }
  destruct (truthy b) eqn:Hb.
  2:{ unfold text_similarity; rewrite Ha, Hb; apply truthy_false in Hb.
      split; [discriminate|intros [_ [H _]]; contradiction]. }
  apply truthy_true in Ha as Ha'; apply truthy_true in Hb as Hb'.
  destruct (list_eq_dec string_dec (vocabulary a b) []) as [HV|HV].
  - rewrite text_similarity_empty_vocabulary by assumption.
    unfold vocabulary in HV; apply nodup_nil, app_eq_nil in HV as [Ta Tb].
    tauto.
  - rewrite text_similarity_value by assumption.
    split; [discriminate|intros [_ [_ [Ta Tb]]]; exfalso].
    apply HV; unfold vocabulary; rewrite Ta, Tb; reflexivity.
Qed.

(** [compute_similarity] with the scores it combines. *)
Lemma compute_similarity_parts f1 f2 sc :
  compute_similarity f1 f2 = Some sc ->
  exists t d rc im,
    text_similarity (fget f1 "Title") (fget f2 "Title") = Some t /\
    text_similarity (fget f1 "Description") (fget f2 "Description") = Some d /\
    text_similarity (fget f1 "Issue Root Cause") (fget f2 "Issue Root Cause")
      = Some rc /\
    text_similarity (fget f1 "Issue Impact") (fget f2 "Issue Impact") = Some im /\
    sc = [("Issue ID"%string, issue_id_score f1 f2); ("Title"%string, t);
          ("Description"%string, d); ("Issue Root Cause"%string, rc);
          ("Issue Impact"%string, im);
          ("Overall"%string, (issue_id_score f1 f2 + t + d + rc + im) / 5)].
Proof.
  unfold compute_similarity.
  destruct (text_similarity (fget f1 "Title") (fget f2 "Title")) as [t|];
    [|discriminate].
  destruct (text_similarity (fget f1 "Description") (fget f2 "Description"))
    as [d|]; [|discriminate].
  destruct (text_similarity (fget f1 "Issue Root Cause")
                            (fget f2 "Issue Root Cause")) as [rc|];
    [|discriminate].
  destruct (text_similarity (fget f1 "Issue Impact") (fget f2 "Issue Impact"))
    as [im|]; [|discriminate].
  intros H; inversion H; subst; clear H.
  exists t, d, rc, im; repeat split; cbn.
  replace ((0 + issue_id_score f1 f2 + t + d + rc + im) / (1 + 1 + 1 + 1 + 1))
    with ((issue_id_score f1 f2 + t + d + rc + im) / 5) by field.
  reflexivity.
Qed.

Lemma compute_similarity_none_iff f1 f2 :
  compute_similarity f1 f2 = None <->
  exists k, In k ["Title"; "Description"; "Issue Root Cause"; "Issue Impact"]%string
            /\ text_similarity (fget f1 k) (fget f2 k) = None.
Proof.
  unfold compute_similarity.
  destruct (text_similarity (fget f1 "Title") (fget f2 "Title")) eqn:E1;
  [destruct (text_similarity (fget f1 "Description") (fget f2 "Description"))
     eqn:E2;
   [destruct (text_similarity (fget f1 "Issue Root Cause")
                              (fget f2 "Issue Root Cause")) eqn:E3;
    [destruct (text_similarity (fget f1 "Issue Impact") (fget f2 "Issue Impact"))
       eqn:E4|]|]|].
  - split; [discriminate|].
    intros [k [Hk Hn]]; simpl in Hk.
    destruct Hk as [<-|[<-|[<-|[<-|[]]]]]; congruence.
  - split; [intros _|reflexivity].
    exists "Issue Impact"%string; split; [simpl; tauto|exact E4].
  - split; [intros _|reflexivity].
    exists "Issue Root Cause"%string; split; [simpl; tauto|exact E3].
  - split; [intros _|reflexivity].
    exists "Description"%string; split; [simpl; tauto|exact E2].
  - split; [intros _|reflexivity].
    exists "Title"%string; split; [simpl; tauto|exact E1].
Qed.


Lemma issue_id_score_present f1 f2 :
  In "Issue ID"%string (map fst f1) -> In "Issue ID"%string (map fst f2) ->
  issue_id_score f1 f2 =
  if String.eqb (fget f1 "Issue ID") (fget f2 "Issue ID") then 1 else 0.
Proof.
  intros H1 H2; unfold issue_id_score.
  rewrite (dict_get_present f1 _ H1), (dict_get_present f2 _ H2); reflexivity.
Qed.

(** *** Token lists that are permutations of each other *)

Lemma tf_perm a a' t :
  Permutation (tokenize a) (tokenize a') -> tf a t = tf a' t.
Proof.
  intros Hp; unfold tf; f_equal.
  apply (proj1 (Permutation_count_occ string_dec _ _) Hp).
Qed.

Lemma in_dec_perm (l l' : list string) t :
  Permutation l l' ->
  (if in_dec string_dec t l then 1 else 0)%nat =
  (if in_dec string_dec t l' then 1 else 0)%nat.
Proof.
  intros Hp; destruct (in_dec string_dec t l) as [H|H],
                      (in_dec string_dec t l') as [H'|H']; try reflexivity.
  - exfalso; apply H', (Permutation_in _ Hp H).
  - exfalso; apply H, (Permutation_in _ (Permutation_sym Hp) H').
Qed.

Lemma idf_perm a a' b t :
  Permutation (tokenize a) (tokenize a') -> idf a b t = idf a' b t.
Proof.
  intros Hp; unfold idf, doc_freq; rewrite (in_dec_perm _ _ t Hp); reflexivity.
Qed.

Lemma vocabulary_perm_l a a' b :
  Permutation (tokenize a) (tokenize a') ->
  Permutation (vocabulary a b) (vocabulary a' b).
Proof.
  intros Hp; unfold vocabulary; apply NoDup_Permutation; try apply NoDup_nodup.
  intros t; rewrite !nodup_In, !in_app_iff; split; intros [H|H];
    try (right; exact H); left.
  - exact (Permutation_in _ Hp H).
  - exact (Permutation_in _ (Permutation_sym Hp) H).
Qed.

Lemma text_similarity_perm_l a a' b :
  Permutation (tokenize a) (tokenize a') -> truthy a = truthy a' ->
  text_similarity a b = text_similarity a' b.
Proof.
  intros Hp Htr.
  destruct (truthy a) eqn:Ha.
  2:{ unfold text_similarity; rewrite Ha, <- Htr; reflexivity. }
  destruct (truthy b) eqn:Hb.
  2:{ unfold text_similarity; rewrite Ha, <- Htr, Hb; reflexivity. }
  symmetry in Htr.
  pose proof (vocabulary_perm_l a a' b Hp) as HV.
  destruct (list_eq_dec string_dec (vocabulary a b) []) as [H0|H0].
  - rewrite !text_similarity_empty_vocabulary; try assumption; [reflexivity|].
    rewrite H0 in HV; apply Permutation_nil, HV.
  - assert (H0' : vocabulary a' b <> []).
    { intros H; rewrite H in HV; apply H0, Permutation_nil, Permutation_sym, HV. }
    rewrite !text_similarity_value by assumption; f_equal.
    apply sumR_map_perm; [exact HV|]; intros t.
    f_equal; apply normalize_fun_perm; try exact HV;
      apply normalize_fun_perm; try exact HV; intros t';
      rewrite (idf_perm a a' b t' Hp); [rewrite (tf_perm a a' t' Hp)|];
      reflexivity.
Qed.

(** *** Scores and shared tokens *)

Lemma normalize_fun_zero V f t : f t = 0 -> normalize_fun V f t = 0.
Proof.
  intros H; unfold normalize_fun; cbv zeta.
  destruct (Req_dec_T _ 0); rewrite H; [reflexivity|unfold Rdiv; ring].
Qed.

Lemma normalize_fun_pos V f t :
  0 < f t -> 0 < normalize_fun V f t.
Proof.
  intros H; unfold normalize_fun; cbv zeta.
  destruct (Req_dec_T _ 0) as [_|Hn]; [exact H|].
  apply Rdiv_lt_0_compat; [exact H|].
  destruct (sqrt_pos (sumR (map (fun t => f t * f t) V))) as [Hp|Hp];
    [exact Hp|symmetry in Hp; contradiction].
Qed.

Lemma sumR_map_zero (h : string -> R) V :
  (forall t, h t = 0) -> sumR (map h V) = 0.
Proof. intros H; induction V as [|t V IH]; simpl; [reflexivity|rewrite H, IH; ring]. Qed.

Lemma tf_pos doc t : In t (tokenize doc) -> 0 < tf doc t.
Proof. intros H; unfold tf; apply lt_0_INR, count_occ_In, H. Qed.

Lemma tf_zero doc t : ~ In t (tokenize doc) -> tf doc t = 0.
Proof.
  intros H; unfold tf; rewrite (proj1 (count_occ_not_In string_dec _ _) H).
  reflexivity.
Qed.

Lemma text_similarity_shared a b s :
  truthy a = true -> truthy b = true -> text_similarity a b = Some s ->
  (0 < s <-> exists t, In t (tokenize a) /\ In t (tokenize b)).
Proof.
  intros Ha Hb Hs.
  destruct (list_eq_dec string_dec (vocabulary a b) []) as [H0|H0].
  { rewrite text_similarity_empty_vocabulary in Hs by assumption; discriminate. }
  rewrite text_similarity_value in Hs by assumption.
  inversion Hs as [Hs']; clear Hs; subst s.
  set (V := vocabulary a b).
  set (u := normalize_fun V (normalize_fun V (fun t => tf a t * idf a b t))).
  set (v := normalize_fun V (normalize_fun V (fun t => tf b t * idf a b t))).
  assert (Hu : forall t, 0 <= u t)
    by (apply normalize_fun_nonneg, normalize_fun_nonneg; intros; apply weight_nonneg).
  assert (Hv : forall t, 0 <= v t)
    by (apply normalize_fun_nonneg, normalize_fun_nonneg; intros; apply weight_nonneg).
  assert (Hwpos : forall doc t, In t (tokenize doc) -> 0 < tf doc t * idf a b t).
  { intros doc t Ht; pose proof (idf_ge_1 a b t); pose proof (tf_pos doc t Ht).
    apply Rmult_lt_0_compat; lra. }
  split.
  - intros Hpos.
    destruct (existsb (fun t => if in_dec string_dec t (tokenize b) then true else false)
                      (tokenize a)) eqn:E.
    + apply existsb_exists in E as [t [Hta Htb]].
      exists t; split; [exact Hta|].
      destruct (in_dec string_dec t (tokenize b)); [assumption|discriminate].
    + exfalso.
      assert (Hz : sumR (map (fun t => u t * v t) V) = 0).
      { apply sumR_map_zero; intros t.
        destruct (in_dec string_dec t (tokenize a)) as [Hta|Hta].
        - assert (Htb : ~ In t (tokenize b)).
          { intros Htb.
            assert (Ht : existsb (fun t => if in_dec string_dec t (tokenize b)
                                           then true else false) (tokenize a) = true).
            { apply existsb_exists; exists t; split; [exact Hta|].
              destruct (in_dec string_dec t (tokenize b));
                [reflexivity|contradiction]. }
            congruence. }
          unfold v; rewrite (normalize_fun_zero V _ t); [ring|].
          apply normalize_fun_zero; rewrite tf_zero by exact Htb; ring.
        - unfold u; rewrite (normalize_fun_zero V _ t); [ring|].
          apply normalize_fun_zero; rewrite tf_zero by exact Hta; ring. }
      fold u v in Hpos; lra.
  - intros [t [Hta Htb]].
    assert (HtV : In t V)
      by (unfold V, vocabulary; apply nodup_In, in_app_iff; left; exact Hta).
    apply (sumR_map_pos _ V t); [intros; apply Rmult_le_pos; [apply Hu|apply Hv]
                                |exact HtV|].
    apply Rmult_lt_0_compat; [unfold u|unfold v];
      apply normalize_fun_pos, normalize_fun_pos, Hwpos; assumption.
Qed.

(** Without a shared token every product of the two rows has a zero
    factor, so the score is exactly 0. *)
Lemma text_similarity_disjoint_zero a b s :
  truthy a = true -> truthy b = true -> text_similarity a b = Some s ->
  ~ (exists t, In t (tokenize a) /\ In t (tokenize b)) -> s = 0.
Proof.
  intros Ha Hb Hs Hno.
  destruct (list_eq_dec string_dec (vocabulary a b) []) as [H0|H0].
  { rewrite text_similarity_empty_vocabulary in Hs by assumption; discriminate. }
  rewrite text_similarity_value in Hs by assumption.
  inversion Hs as [Hs']; clear Hs; subst s.
  apply sumR_map_zero; intros t.
  destruct (in_dec string_dec t (tokenize a)) as [Hta|Hta].
  - assert (Htb : ~ In t (tokenize b)) by (intros Htb; apply Hno; exists t; tauto).
    rewrite (normalize_fun_zero _ (normalize_fun _ (fun t => tf b t * idf a b t)) t);
      [ring|].
    apply normalize_fun_zero; rewrite tf_zero by exact Htb; ring.
  - rewrite (normalize_fun_zero _ (normalize_fun _ (fun t => tf a t * idf a b t)) t);
      [ring|].
    apply normalize_fun_zero; rewrite tf_zero by exact Hta; ring.
Qed.



(** *** The Compare action *)

Lemma sim_rows_of_scores i t d rc im th :
  sim_rows [("Issue ID"%string, i); ("Title"%string, t);
            ("Description"%string, d); ("Issue Root Cause"%string, rc);
            ("Issue Impact"%string, im);
            ("Overall"%string, (i + t + d + rc + im) / 5)] th =
  Some [("Issue ID"%string, to_match_label i 1);
        ("Title"%string, to_match_label t th);
        ("Description"%string, to_match_label d th);
        ("Issue Root Cause"%string, to_match_label rc th);
        ("Issue Impact"%string, to_match_label im th);
        ("Overall"%string, to_match_label ((i + t + d + rc + im) / 5) th)].
Proof. reflexivity. Qed.

Lemma compare_documents_none pages doc th :
  compare_documents pages doc th = None <->
  compute_similarity (parse_issue_briefing_pdf_from_file pages)
                     (parse_icp_docx_from_file doc) = None.
Proof.
  unfold compare_documents.
  destruct (compute_similarity _ _) as [sc|] eqn:E; [|tauto].
  destruct (compute_similarity_parts _ _ _ E) as [t [d [rc [im [_ [_ [_ [_ ->]]]]]]]].
  rewrite sim_rows_of_scores; split; discriminate.
Qed.

Lemma issue_id_label_cases x y :
  to_match_label (if String.eqb x y then 1 else 0) 1 =
  if String.eqb x y then "Match"%string else "Mismatch"%string.
Proof.
  unfold to_match_label; destruct (String.eqb x y);
    destruct (Rle_dec 1 _) as [H|H]; try reflexivity; exfalso; lra.
Qed.


End ExtraSimFacts.

(* ================================================================== *)
(** * Properties of the rest of the code *)
Module Extras.
Import PyStr Regex PyDict Parsers Similarity Walk App
       ParserFacts SimFacts ExtraFacts ExtraSimFacts.
Open Scope string_scope.

(** X1: the blob the PDF parser searches is the debug-view text of
    [extract_text_from_pdf] with every page without text left out: a page
    whose [extract_text()] is [None] or empty adds an empty line to the
    debug text and nothing to the parser's blob. *)
Theorem pdf_blob_skips_textless_pages (pages : list pdf_page) :
  pdf_combined pages =
  extract_text_from_pdf (filter (fun p => truthy (page_text_or_empty p)) pages).
Proof.
  unfold pdf_combined, extract_text_from_pdf.
  rewrite pdf_paragraph_parts_filter; reflexivity.
Qed.

(** X2: when the document has paragraphs and every table row has one
    cell, the blob the DOCX parser searches is the debug-view text of
    [extract_text_from_docx], followed by a newline when the tables have
    no row at all. *)
Theorem docx_blob_single_cell_rows (doc : docx_document)
  (Hp : doc_paragraphs doc <> [])
  (H1 : forallb (fun row => Nat.eqb (List.length row) 1)
                (concat (doc_tables doc)) = true) :
  docx_combined doc =
  extract_text_from_docx doc ++
  match concat (doc_tables doc) with [] => nl | _ => "" end.
Proof.
  unfold docx_combined, extract_text_from_docx.
  rewrite join_single_cells by exact H1.
  destruct (concat (doc_tables doc)) as [|row rows] eqn:Er.
  - rewrite app_nil_r; reflexivity.
  - rewrite str_app_empty.
    rewrite py_join_app; [reflexivity|exact Hp|].
    simpl in H1; apply andb_true_iff in H1 as [Hrow _].
    destruct row as [|x [|y r]]; try discriminate; simpl; discriminate.
Qed.

Lemma docx_blob_single_cell_rows_witness :
  let doc1 := {| doc_paragraphs := ["Issue Closure Pack"];
                 doc_tables := [[["Issue Title:"]; ["Trade breaks"]]] |} in
  let doc2 := {| doc_paragraphs := ["Issue Closure Pack"];
                 doc_tables := [] |} in
  docx_combined doc1 = extract_text_from_docx doc1 /\
  docx_combined doc2 = extract_text_from_docx doc2 ++ nl.
Proof.
  cbv zeta; split.
  - refine (eq_trans (docx_blob_single_cell_rows _ _ _) _);
      [discriminate|reflexivity|apply str_app_empty].
  - apply (docx_blob_single_cell_rows
             {| doc_paragraphs := ["Issue Closure Pack"]; doc_tables := [] |});
      [discriminate|reflexivity].
Defined.

(** X3: both parsers return a record with exactly the five keys Title,
    Issue ID, Description, Issue Impact, Issue Root Cause, in this order,
    whatever the document. *)
Theorem parsed_record_keys (pages : list pdf_page) (doc : docx_document) :
  map fst (parse_issue_briefing_pdf_from_file pages) =
    ["Title"; "Issue ID"; "Description"; "Issue Impact"; "Issue Root Cause"] /\
  map fst (parse_icp_docx_from_file doc) =
    ["Title"; "Issue ID"; "Description"; "Issue Impact"; "Issue Root Cause"].
Proof. split; [apply pdf_parse_keys|apply docx_parse_keys]. Qed.

(** X4: the key-field table [rows_kv] of [main], built from the two
    parsed records, has a row [(a, x, y)] exactly when [a] is a key of the
    PDF record with value [x] and of the DOCX record with value [y]: no
    cell is filled by the [get] default and no parsed field is left out. *)
Theorem rows_kv_lists_parsed_entries (pages : list pdf_page)
  (doc : docx_document) a x y :
  In (a, x, y) (rows_kv (parse_issue_briefing_pdf_from_file pages)
                        (parse_icp_docx_from_file doc)) <->
  dict_get (parse_issue_briefing_pdf_from_file pages) a = Some x /\
  dict_get (parse_icp_docx_from_file doc) a = Some y.
Proof.
  set (P := parse_issue_briefing_pdf_from_file pages).
  set (D := parse_icp_docx_from_file doc).
  assert (HkP : forall k, In k (map fst P) <-> In k kv_attributes)
    by (intros k; unfold P; rewrite pdf_parse_keys; simpl; tauto).
  assert (HkD : forall k, In k (map fst D) <-> In k kv_attributes)
    by (intros k; unfold D; rewrite docx_parse_keys; simpl; tauto).
  unfold rows_kv; rewrite in_map_iff; split.
  - intros [a' [Heq Ha']]; inversion Heq; subst.
    split; apply dict_get_present; [apply HkP|apply HkD]; exact Ha'.
  - intros [Hx Hy].
    pose proof (dict_get_keys _ _ _ Hx) as Ha.
    rewrite (dict_get_present P a Ha) in Hx.
    rewrite (dict_get_present D a (proj2 (HkD a) (proj1 (HkP a) Ha))) in Hy.
    inversion Hx; inversion Hy; subst.
    exists a; split; [reflexivity|apply HkP, Ha].
Qed.

(** X5: [" ".join(s.split())] is idempotent, and the only whitespace
    character it leaves is the space. *)
Theorem normalize_ws_normal_form (s : string) :
  normalize_ws (normalize_ws s) = normalize_ws s /\
  (forall c, In c (list_ascii_of_string (normalize_ws s)) ->
             is_space c = true -> c = " "%char).
Proof.
  split; [apply normalize_ws_idem|intros c; apply normalize_ws_spaces].
Qed.

(** X6: the Description, Issue Impact and Issue Root Cause values of
    both parsed records are already whitespace-normalised. *)
Theorem span_fields_normalised (pages : list pdf_page) (doc : docx_document) :
  Forall (fun k =>
    normalize_ws (fget (parse_issue_briefing_pdf_from_file pages) k) =
      fget (parse_issue_briefing_pdf_from_file pages) k /\
    normalize_ws (fget (parse_icp_docx_from_file doc) k) =
      fget (parse_icp_docx_from_file doc) k)
    ["Description"; "Issue Impact"; "Issue Root Cause"].
Proof.
  destruct (pdf_parse_spans pages) as [P1 [P2 P3]].
  destruct (docx_parse_spans doc) as [D1 [D2 D3]].
  cbv zeta in *.
  repeat constructor;
    [rewrite P1|rewrite D1|rewrite P2|rewrite D2|rewrite P3|rewrite D3];
    match goal with
    | |- normalize_ws (match ?m with Some _ => _ | None => _ end) = _ =>
        destruct m; [apply normalize_ws_idem|reflexivity]
    end.
Qed.

(** X7: no value of the PDF parser's record contains a newline. *)
Theorem pdf_record_values_newline_free (pages : list pdf_page) :
  Forall (fun kv => no_nl (snd kv)) (parse_issue_briefing_pdf_from_file pages).
Proof. exact (pdf_parse_no_nl pages). Qed.

(** X8: a paragraph field of the PDF record is non-empty only if the
    page text contains both the opening and the closing marker of its
    pattern. *)
Theorem pdf_span_field_needs_markers (pages : list pdf_page) :
  let P := parse_issue_briefing_pdf_from_file pages in
  let c := pdf_combined pages in
  (fget P "Description" <> "" ->
   contains "Description" c = true /\ contains "Issue Impact" c = true) /\
  (fget P "Issue Impact" <> "" ->
   contains "Issue Impact" c = true /\ contains "Issue Root Cause" c = true) /\
  (fget P "Issue Root Cause" <> "" ->
   contains "Issue Root Cause" c = true /\
   contains "Overall Issue Rating" c = true).
Proof.
  destruct (pdf_parse_spans pages) as [H1 [H2 H3]]; cbv zeta in *.
  rewrite H1, H2, H3; unfold pdf_desc_span, pdf_impact_span, pdf_root_span.
  split; [|split]; intros Hne; apply span_value_markers in Hne; exact Hne.
Qed.

(** X9: a paragraph field of the DOCX record is non-empty only if the
    combined text contains the opening marker of its pattern and a
    closing marker (for Issue Impact, ["Background Context:"] or the
    fallback ["Section C:"]). *)
Theorem docx_span_field_needs_markers (doc : docx_document) :
  let D := parse_icp_docx_from_file doc in
  let c := docx_combined doc in
  (fget D "Description" <> "" ->
   contains "Issue Description:" c = true /\
   contains "Issue Root Cause:" c = true) /\
  (fget D "Issue Root Cause" <> "" ->
   contains "Issue Root Cause:" c = true /\ contains "Issue Impact:" c = true) /\
  (fget D "Issue Impact" <> "" ->
   contains "Issue Impact:" c = true /\
   (contains "Background Context:" c = true \/ contains "Section C:" c = true)).
Proof.
  destruct (docx_parse_spans doc) as [H1 [H2 H3]]; cbv zeta in *.
  rewrite H1, H2, H3; unfold docx_desc_span, docx_root_span, docx_impact_span.
  split; [intros H; apply span_value_markers in H; apply H|].
  split; [intros H; apply span_value_markers in H; apply H|].
  destruct (search_span "Issue Impact:" "Background Context:" 0 _) as [g|] eqn:E.
  - intros _; apply search_span_contains in E as [E1 E2]; tauto.
  - intros H; apply span_value_markers in H as [E1 E2]; tauto.
Qed.

(** X10: when the DOCX text has no ["Background Context:"], Issue
    Impact is taken from the fallback pattern ending at ["Section C:"]. *)
Theorem docx_impact_section_c_fallback (doc : docx_document)
  (H : contains "Background Context:" (docx_combined doc) = false) :
  fget (parse_icp_docx_from_file doc) "Issue Impact" =
  match search_span "Issue Impact:" "Section C:" 0 (docx_combined doc) with
  | Some g => normalize_ws g | None => "" end.
Proof.
  destruct (docx_parse_spans doc) as [_ [H2 _]]; cbv zeta in H2.
  rewrite H2; unfold docx_impact_span.
  destruct (search_span "Issue Impact:" "Background Context:" 0 _) as [g|] eqn:E;
    [|reflexivity].
  apply search_span_contains in E as [_ E]; congruence.
Qed.

Lemma docx_impact_section_c_fallback_witness :
  let doc := {| doc_paragraphs :=
                  ["Issue Impact: Delayed  settlement"; "Section C: Actions"];
                doc_tables := [] |} in
  contains "Background Context:" (docx_combined doc) = false /\
  fget (parse_icp_docx_from_file doc) "Issue Impact" =
  match search_span "Issue Impact:" "Section C:" 0 (docx_combined doc) with
  | Some g => normalize_ws g | None => "" end.
Proof.
  cbv zeta; split; [vm_compute; reflexivity|].
  apply docx_impact_section_c_fallback; vm_compute; reflexivity.
Defined.

Open Scope R_scope.



(** X15: word order does not matter: two strings whose token lists are
    permutations of each other (and that are both empty or both
    non-empty) score the same against any string. *)
Theorem text_similarity_token_order (a a' b : string)
  (Hp : Permutation (tokenize a) (tokenize a'))
  (Ht : truthy a = truthy a') :
  text_similarity a b = text_similarity a' b.
Proof. apply text_similarity_perm_l; assumption. Qed.

Lemma text_similarity_token_order_witness :
  Permutation (tokenize "Settlement delayed") (tokenize "delayed, SETTLEMENT") /\
  text_similarity "Settlement delayed" "settlement" =
  text_similarity "delayed, SETTLEMENT" "settlement".
Proof.
  split; [vm_compute; apply perm_swap|].
  apply text_similarity_token_order; [vm_compute; apply perm_swap|reflexivity].
Defined.

(** X16: for two non-empty strings, [text_similarity] raises exactly
    when neither has a token; otherwise its score is positive when they
    share a token and exactly 0 when they share none. *)
Theorem text_similarity_positive_iff_shared_token (a b : string)
  (Ha : truthy a = true) (Hb : truthy b = true) :
  (text_similarity a b = None <-> tokenize a = [] /\ tokenize b = []) /\
  forall s, text_similarity a b = Some s ->
    (0 < s <-> exists t, In t (tokenize a) /\ In t (tokenize b)) /\
    (s = 0 <-> ~ exists t, In t (tokenize a) /\ In t (tokenize b)).
Proof.
  split.
  - rewrite text_similarity_none_iff.
    apply truthy_true in Ha, Hb; tauto.
  - intros s Hs.
    pose proof (text_similarity_shared a b s Ha Hb Hs) as Hpos.
    split; [exact Hpos|split].
    + intros -> Hsh; apply Hpos in Hsh; lra.
    + exact (text_similarity_disjoint_zero a b s Ha Hb Hs).
Qed.

Lemma text_similarity_positive_iff_shared_token_witness :
  (text_similarity "trade breaks" "trade delays" = None <->
   tokenize "trade breaks" = [] /\ tokenize "trade delays" = []) /\
  forall s, text_similarity "trade breaks" "trade delays" = Some s ->
    (0 < s <-> exists t, In t (tokenize "trade breaks") /\
                         In t (tokenize "trade delays")) /\
    (s = 0 <-> ~ exists t, In t (tokenize "trade breaks") /\
                           In t (tokenize "trade delays")).
Proof.
  apply text_similarity_positive_iff_shared_token; reflexivity.
Defined.

(** X18: the Compare action of [main] raises exactly when, for one of
    Title, Description, Issue Root Cause and Issue Impact, both parsed
    values are non-empty and token-free; it never fails on a missing
    score. *)
Theorem compare_raises_iff (pages : list pdf_page) (doc : docx_document)
  (th : R) :
  compare_documents pages doc th = None <->
  exists k, In k ["Title"; "Description"; "Issue Root Cause"; "Issue Impact"]%string
    /\ fget (parse_issue_briefing_pdf_from_file pages) k <> ""%string
    /\ fget (parse_icp_docx_from_file doc) k <> ""%string
    /\ tokenize (fget (parse_issue_briefing_pdf_from_file pages) k) = []
    /\ tokenize (fget (parse_icp_docx_from_file doc) k) = [].
Proof.
  rewrite compare_documents_none, compute_similarity_none_iff; split;
    intros [k [Hk Hn]]; exists k; split; try exact Hk;
    apply text_similarity_none_iff; exact Hn.
Qed.

(** X19: when the Compare action completes, its result table has the
    rows Issue ID, Title, Description, Issue Root Cause, Issue Impact and
    Overall, in this order, and the Issue ID row reads "Match" exactly
    when the two parsed Issue IDs are equal strings. *)
Theorem compare_rows (pages : list pdf_page) (doc : docx_document) (th : R)
  (rows : list (string * string))
  (H : compare_documents pages doc th = Some rows) :
  exists lt ld lrc lim lo,
    rows = [("Issue ID"%string,
             if String.eqb (fget (parse_issue_briefing_pdf_from_file pages)
                                 "Issue ID")
                           (fget (parse_icp_docx_from_file doc) "Issue ID")
             then "Match"%string else "Mismatch"%string);
            ("Title"%string, lt); ("Description"%string, ld);
            ("Issue Root Cause"%string, lrc); ("Issue Impact"%string, lim);
            ("Overall"%string, lo)].
Proof.
  unfold compare_documents in H.
  destruct (compute_similarity _ _) as [sc|] eqn:E; [|discriminate].
  destruct (compute_similarity_parts _ _ _ E)
    as [t [d [rc [im [_ [_ [_ [_ ->]]]]]]]].
  rewrite sim_rows_of_scores in H; inversion H; subst rows.
  rewrite issue_id_score_present, issue_id_label_cases;
    [eexists; eexists; eexists; eexists; eexists; reflexivity| |];
    [rewrite pdf_parse_keys|rewrite docx_parse_keys]; simpl; tauto.
Qed.

Lemma compare_rows_witness :
  let doc := {| doc_paragraphs := [];
                doc_tables := [[["Source System Issue Reference:"; "ISSUE-7"]]] |} in
  exists rows, compare_documents [] doc (4 / 5) = Some rows /\
  exists lt ld lrc lim lo,
    rows = [("Issue ID"%string,
             if String.eqb (fget (parse_issue_briefing_pdf_from_file [])
                                 "Issue ID")
                           (fget (parse_icp_docx_from_file doc) "Issue ID")
             then "Match"%string else "Mismatch"%string);
            ("Title"%string, lt); ("Description"%string, ld);
            ("Issue Root Cause"%string, lrc); ("Issue Impact"%string, lim);
            ("Overall"%string, lo)].
Proof.
  cbv zeta; eexists; split; [reflexivity|].
  apply (compare_rows _ _ (4 / 5)); reflexivity.
Defined.

End Extras.
